(** * Dataflow Python SDK: deferred values, side inputs, top-N combine

    A shallow embedding of [google/cloud/dataflow/pvalue.py] and of the
    example pipeline [examples/complete/top_wikipedia_sessions.py],
    together with the properties of the graph model, of side-input
    resolution and of the bounded top-N combiner that the specification
    states about them.

    Python objects that are mutated in place ([DoOutputsTuple._pcolls],
    the transform's [side_output_tags], the pipeline's registry of values)
    live in an explicit object graph that every operation threads through;
    a raised exception is a [Raise] outcome next to the state in which it
    was raised. *)

From Stdlib Require Import ZArith QArith Lia.
From stdpp Require Import gmap strings list pretty sorting.

Open Scope Z_scope.

(** ** Exceptions and the state-and-exception monad *)

Inductive exn : Type :=
| ValueError
| TypeError
| KeyError
| RunnerError.

Inductive result (A : Type) : Type :=
| Ok (a : A)
| Raise (e : exn).
Arguments Ok {A} a.
Arguments Raise {A} e.

(** A computation over a mutable state [S] that may raise. *)
Definition M (S A : Type) : Type := S -> result A * S.

Definition ret {S A} (a : A) : M S A := fun s => (Ok a, s).
Definition raise {S A} (e : exn) : M S A := fun s => (Raise e, s).
Definition bind {S A B} (m : M S A) (k : A -> M S B) : M S B :=
  fun s => match m s with
           | (Ok a, s') => k a s'
           | (Raise e, s') => (Raise e, s')
           end.
Definition get {S} : M S S := fun s => (Ok s, s).
Definition modify {S} (f : S -> S) : M S unit := fun s => (Ok tt, f s).

#[global] Instance M_ret {S} : MRet (M S) := @ret S.
#[global] Instance M_bind {S} : MBind (M S) := fun A B k m => bind m k.

(** ** Tags

    A tag handed to [DoOutputsTuple.__getitem__] is [None], a string or an
    integer (partition functions return ints).  [TagInt i] is the integer
    [i] as Python 2 holds it: an [int] when it fits a machine word, a [long]
    otherwise. *)

Inductive tag : Type :=
| TagNone
| TagStr (s : string)
| TagInt (i : Z).

#[global] Instance tag_eq_dec : EqDecision tag.
Proof. solve_decision. Defined.

Definition tag_to_sum (t : tag) : unit + (string + Z) :=
  match t with
  | TagNone => inl tt
  | TagStr s => inr (inl s)
  | TagInt i => inr (inr i)
  end.

Definition tag_of_sum (x : unit + (string + Z)) : tag :=
  match x with
  | inl _ => TagNone
  | inr (inl s) => TagStr s
  | inr (inr i) => TagInt i
  end.

#[global] Instance tag_countable : Countable tag.
Proof.
  apply (inj_countable' tag_to_sum tag_of_sum).
  intros []; reflexivity.
Defined.

(** [str(i)] for a Python [int]: the decimal numeral, with a leading minus
    sign for negative numbers. *)
Definition str_int (i : Z) : string := pretty i.

(** [sys.maxint] of a 64-bit build; the [int]s are the integers from
    [-sys.maxint - 1] to [sys.maxint], every other integer is a [long]. *)
Definition maxint : Z := 2 ^ 63 - 1.

Definition is_int (i : Z) : bool := (- maxint - 1 <=? i) && (i <=? maxint).

(** [isinstance(tag, int)] followed by [tag = str(tag)]: a [long] is no
    instance of [int] and stays as it is. *)
Definition coerce_int_tag (t : tag) : tag :=
  match t with
  | TagInt i => if is_int i then TagStr (str_int i) else t
  | _ => t
  end.

(** ** The object graph *)

(** Type hints and applied transforms are opaque here: only their identity
    is stored in a value. *)
Definition typehint := string.
Definition applied_ptransform := nat.

(** [PValue]/[PCollection]: [obj_id] is the identity of the Python object
    (what [is] compares); the other fields are the attributes set by
    [PValue.__init__] and, for [producer], by whoever applies a transform. *)
Record PCollection : Type := mkPCollection {
  obj_id : nat;
  tag_of : tag;
  element_type : option typehint;
  producer : option applied_ptransform
}.

#[global] Instance PCollection_eq_dec : EqDecision PCollection.
Proof. solve_decision. Defined.

(** The transform a [DoOutputsTuple] was built for; [__getitem__] adds to
    its [side_output_tags]. *)
Record PTransform : Type := mkPTransform {
  side_output_tags : gset tag
}.

Section Graph.

(** The runner bound to a pipeline is an opaque object. *)
Context {Runner : Type}.

(** Modelled from the spec: [Pipeline] (pipeline.py is not part of the
    sources at hand).  "Pipeline: owns the entire graph: the set of deferred
    values created so far and the runner that will eventually execute
    them."  [_add_pvalue] records the identity of the new value. *)
Record Pipeline : Type := mkPipeline {
  runner : option Runner;
  pvalues : list nat
}.

Definition Pipeline_add_pvalue (pv : nat) (p : Pipeline) : Pipeline :=
  {| runner := runner p; pvalues := pvalues p ++ [pv] |}.

(** [DoOutputsTuple]: [_tags] is [None] or a sequence of declared side tags,
    [_pcolls] the dictionary of PCollections already handed out. *)
Record DoOutputsTuple : Type := mkDoOutputsTuple {
  _tags : option (list tag);
  _main_tag : tag;
  dot_producer : option applied_ptransform;
  _pcolls : gmap tag PCollection
}.

(** Everything [__getitem__] can reach and mutate: the allocator of object
    identities, the pipeline [self._pipeline], the transform
    [self._transform] and the tuple [self] itself. *)
Record Heap : Type := mkHeap {
  next_id : nat;
  the_pipeline : Pipeline;
  the_transform : PTransform;
  self : DoOutputsTuple
}.

(** Keyword arguments of [PValue.__init__]; [kw_other] lists the names of
    any further keywords. *)
Record kwargs : Type := mkKwargs {
  kw_pipeline : bool;
  kw_transform : bool;
  kw_tag : option tag;
  kw_element_type : option typehint;
  kw_other : list string
}.

(** [PValue.__init__] (and [PCollection.__init__], which only calls it). *)
Definition PValue_init (kw : kwargs) : M Heap PCollection :=
  (if negb (kw_pipeline kw) || negb (kw_transform kw) then raise ValueError
   else
     if negb (bool_decide (kw_other kw = [])) then raise ValueError
     else
       h ← get;
       let pv := {| obj_id := next_id h;
                    tag_of := default TagNone (kw_tag kw);
                    element_type := kw_element_type kw;
                    producer := None |} in
       modify (fun h => {| next_id := S (next_id h);
                           the_pipeline :=
                             Pipeline_add_pvalue (obj_id pv) (the_pipeline h);
                           the_transform := the_transform h;
                           self := self h |});;
       ret pv).

(** Truth value of [self._tags]: [None] and the empty sequence are false. *)
Definition truthy_tags (ts : option (list tag)) : bool :=
  match ts with
  | Some (_ :: _) => true
  | _ => false
  end.

(** [tag not in self._tags], evaluated only when [self._tags] is true. *)
Definition not_in_tags (t : tag) (ts : option (list tag)) : bool :=
  negb (bool_decide (t ∈ default [] ts)).

Definition add_side_output_tag (t : tag) (h : Heap) : Heap :=
  {| next_id := next_id h;
     the_pipeline := the_pipeline h;
     the_transform :=
       {| side_output_tags := {[ t ]} ∪ side_output_tags (the_transform h) |};
     self := self h |}.

Definition store_pcoll (t : tag) (pc : PCollection) (h : Heap) : Heap :=
  {| next_id := next_id h;
     the_pipeline := the_pipeline h;
     the_transform := the_transform h;
     self := {| _tags := _tags (self h);
                _main_tag := _main_tag (self h);
                dot_producer := dot_producer (self h);
                _pcolls := <[ t := pc ]> (_pcolls (self h)) |} |}.

(** [DoOutputsTuple.__getitem__], statement by statement. *)
Definition getitem (tag : tag) : M Heap PCollection :=
  let tag := coerce_int_tag tag in
  h ← get;
  tag ← (if bool_decide (tag = _main_tag (self h)) then ret TagNone
         else if truthy_tags (_tags (self h))
                 && not_in_tags tag (_tags (self h))
              then raise ValueError
              else ret tag);
  match _pcolls (self h) !! tag with
  | Some pc => ret pc
  | None =>
      (if bool_decide (tag = TagNone) then ret tt
       else modify (add_side_output_tag tag));;
      pcoll ← PValue_init {| kw_pipeline := true;
                              kw_transform := true;
                              kw_tag := Some tag;
                              kw_element_type := None;
                              kw_other := [] |};
      h1 ← get;
      let pcoll := {| obj_id := obj_id pcoll;
                      tag_of := tag_of pcoll;
                      element_type := element_type pcoll;
                      producer := dot_producer (self h1) |} in
      modify (store_pcoll tag pcoll);;
      ret pcoll
  end.

(** What the first two statements of [__getitem__] make of a tag: ints
    become strings, the main tag becomes [None]; [None] when they raise. *)
Definition resolve_tag (d : DoOutputsTuple) (t : tag) : option tag :=
  let t := coerce_int_tag t in
  if bool_decide (t = _main_tag d) then Some TagNone
  else if truthy_tags (_tags d) && not_in_tags t (_tags d) then None
  else Some t.

(** The dictionary key a lookup of [t] uses when it does not raise. *)
Definition cache_key (d : DoOutputsTuple) (t : tag) : tag :=
  let t := coerce_int_tag t in
  if bool_decide (t = _main_tag d) then TagNone else t.

(** [DoOutputsTuple.__init__]: a fresh tuple in an existing graph. *)
Definition DoOutputsTuple_init (fresh : nat) (p : Pipeline) (tr : PTransform)
    (tags : option (list tag)) (main_tag : tag) : Heap :=
  {| next_id := fresh;
     the_pipeline := p;
     the_transform := tr;
     self := {| _tags := tags; _main_tag := main_tag;
                dot_producer := None; _pcolls := ∅ |} |}.

(** [tuple.producer = ap]: "The field gets initialized when a transform
    gets applied", by an assignment from outside the class. *)
Definition set_producer (ap : option applied_ptransform) (h : Heap) : Heap :=
  {| next_id := next_id h;
     the_pipeline := the_pipeline h;
     the_transform := the_transform h;
     self := {| _tags := _tags (self h);
                _main_tag := _main_tag (self h);
                dot_producer := ap;
                _pcolls := _pcolls (self h) |} |}.

(** A run of lookups in program order; a lookup that raises is caught and
    the next one goes on from the state it left. *)
Definition lookups (ts : list tag) (h : Heap) : Heap :=
  fold_left (fun h t => snd (getitem t h)) ts h.

(** The PCollection a cache miss on key [k] creates, and the state the
    lookup leaves. *)
Definition created (h : Heap) (k : tag) : PCollection :=
  {| obj_id := next_id h; tag_of := k; element_type := None;
     producer := dot_producer (self h) |}.

Definition after_create (h : Heap) (k : tag) : Heap :=
  {| next_id := S (next_id h);
     the_pipeline := Pipeline_add_pvalue (next_id h) (the_pipeline h);
     the_transform :=
       if bool_decide (k = TagNone) then the_transform h
       else {| side_output_tags := {[ k ]} ∪ side_output_tags (the_transform h) |};
     self := {| _tags := _tags (self h);
                _main_tag := _main_tag (self h);
                dot_producer := dot_producer (self h);
                _pcolls := <[ k := created h k ]> (_pcolls (self h)) |} |}.

(** What holds of every tuple state reached from [DoOutputsTuple_init] at
    allocator position [n0]: one object was allocated per cached tag, the
    cached objects are among them, and no two tags share an object. *)
Definition tuple_inv (n0 : nat) (h : Heap) : Prop :=
  next_id h = (n0 + size (_pcolls (self h)))%nat
  /\ (forall k pc, _pcolls (self h) !! k = Some pc ->
        (n0 <= obj_id pc < next_id h)%nat)
  /\ (forall k1 k2 pc1 pc2,
        _pcolls (self h) !! k1 = Some pc1 -> _pcolls (self h) !! k2 = Some pc2 ->
        obj_id pc1 = obj_id pc2 -> k1 = k2).

End Graph.

(** ** Materializing a PCollection *)

(** Internally every element is a [WindowedValue]: a value, its event-time
    timestamp and the windows it is assigned to. *)
Record WindowedValue (V T W : Type) : Type := mkWindowedValue {
  value : V;
  timestamp : T;
  windows : list W
}.
Arguments mkWindowedValue {V T W} value timestamp windows.
Arguments value {V T W} w.
Arguments timestamp {V T W} w.
Arguments windows {V T W} w.

(** The runner interface [_get_values] calls through: [run] executes the
    graph below a node, [get_pvalue] returns the windowed elements computed
    for a value.  Both act on the runner's own state [RS] and may raise. *)
Class RunnerInterface (Runner RS V T W : Type) : Type := {
  run : Runner -> @Pipeline Runner -> PCollection -> M RS unit;
  get_pvalue : Runner -> PCollection -> M RS (list (WindowedValue V T W))
}.

(** The state [_get_values] runs in: the pipeline the value belongs to
    ([self.pipeline]), the runner's state, and a log with one entry (the
    node's identity) per call of [runner.run]. *)
Record ExecState (Runner RS : Type) : Type := mkExecState {
  exec_pipeline : @Pipeline Runner;
  runner_state : RS;
  run_log : list nat
}.
Arguments mkExecState {Runner RS} exec_pipeline runner_state run_log.
Arguments exec_pipeline {Runner RS} e.
Arguments runner_state {Runner RS} e.
Arguments run_log {Runner RS} e.

Section Materialize.
Context {Runner RS V T W : Type} `{!RunnerInterface Runner RS V T W}.

(** Run a computation of the runner inside the execution state. *)
Definition in_runner {A} (m : M RS A) : M (ExecState Runner RS) A :=
  fun s => let '(r, rs) := m (runner_state s) in
           (r, {| exec_pipeline := exec_pipeline s;
                  runner_state := rs;
                  run_log := run_log s |}).

Definition log_run (node : PCollection) : M (ExecState Runner RS) unit :=
  modify (fun s => {| exec_pipeline := exec_pipeline s;
                      runner_state := runner_state s;
                      run_log := run_log s ++ [obj_id node] |}).

(** [PCollection._get_un_windowed_value]. *)
Definition _get_un_windowed_value (values : list (WindowedValue V T W)) : list V :=
  map value values.

(** The local function [_get_internal(self, runner=None)]. *)
Definition _get_internal (node : PCollection) (runner_arg : option Runner)
  : M (ExecState Runner RS) (list V) :=
  s ← get;
  let runner := match runner_arg with
                | Some r => Some r
                | None => runner (exec_pipeline s)
                end in
  match runner with
  | None => raise RunnerError
  | Some r =>
      log_run node;;
      in_runner (run r (exec_pipeline s) node);;
      wvs ← in_runner (get_pvalue r node);
      ret (_get_un_windowed_value wvs)
  end.

(** [PCollection._get_values]: [list(_get_internal(self))]. *)
Definition _get_values (node : PCollection) : M (ExecState Runner RS) (list V) :=
  _get_internal node None.

End Materialize.

(** ** Side-input markers *)

(** Python values that can be elements of a side input or defaults: plain
    data, the private object [AsSingleton._NO_DEFAULT], and instances of
    the class [EmptySideInput]. *)
Inductive pyval : Type :=
| PyNone
| PyInt (z : Z)
| PyStr (s : string)
| NO_DEFAULT
| EmptySideInput.

#[global] Instance pyval_eq_dec : EqDecision pyval.
Proof. solve_decision. Defined.


(** An [AsSingleton] marker: the wrapped value and the default. *)
Record AsSingleton : Type := mkAsSingleton {
  pvalue : PCollection;
  default_value : pyval
}.

(** [AsSingleton.__init__(self, pvalue, default_value=_NO_DEFAULT)]; the
    second argument is [None] here when the caller left it out. *)
Definition AsSingleton_init (pv : PCollection) (default_arg : option pyval)
  : AsSingleton :=
  {| pvalue := pv; default_value := default NO_DEFAULT default_arg |}.

(** An [AsIter] marker. *)
Record AsIter : Type := mkAsIter { iter_pvalue : PCollection }.


Section Or.

(** [Pipeline.apply] is not part of the sources at hand: a computation on
    the graph state [G]. *)
Context {ptransform G : Type}.
Variable Pipeline_apply : ptransform -> PCollection -> M G PCollection.

(** [PValue.__or__]: [self.pipeline.apply(ptransform, self)]. *)
Definition PValue_or (pv : PCollection) (pt : ptransform) : M G PCollection :=
  Pipeline_apply pt pv.

End Or.

(** Modelled from the spec: the two transforms [combiners.ToList(label)]
    and [combiners.ToDict(label)] that [AsList] and [AsDict] construct
    (transforms/combiners.py is not part of the sources at hand).
    "[AsList]/[AsDict] ... first apply a combiner that reduces the wrapped
    Collection to one list/one map". *)
Inductive combiner : Type :=
| ToList (label : string)
| ToDict (label : string).

Section DerivedMarkers.
Context {G : Type}.
Variable Pipeline_apply : combiner -> PCollection -> M G PCollection.

(** [AsList(pcoll, label='AsList')]. *)
Definition AsList (pcoll : PCollection) (label : option string) : M G AsSingleton :=
  out ← PValue_or Pipeline_apply pcoll (ToList (default "AsList" label));
  ret (AsSingleton_init out None).

(** [AsDict(pcoll, label='AsDict')]. *)
Definition AsDict (pcoll : PCollection) (label : option string) : M G AsSingleton :=
  out ← PValue_or Pipeline_apply pcoll (ToDict (default "AsDict" label));
  ret (AsSingleton_init out None).

End DerivedMarkers.

(** A node of the graph: a transform and the value it was applied to.  In
    the graph, a node is known by its position among the applied
    transforms. *)
Record AppliedPTransform : Type := mkAppliedPTransform {
  ap_transform : combiner;
  ap_input : PCollection
}.

Record Graph : Type := mkGraph {
  graph_next_id : nat;
  graph_pvalues : list nat;
  graph_applied : list AppliedPTransform
}.

(** Modelled from the spec: [Pipeline.apply] on one of these transforms
    (pipeline.py is not part of the sources at hand).  "[apply(transform,
    value, ...)] binds [value] as input to [transform], registers a new
    graph node owned by the pipeline, and returns one or more new deferred
    values whose [producer] points at that node." *)
Definition Graph_apply (pt : combiner) (pv : PCollection) : M Graph PCollection :=
  g ← get;
  let out := {| obj_id := graph_next_id g;
                tag_of := TagNone;
                element_type := None;
                producer := Some (length (graph_applied g)) |} in
  modify (fun g => {| graph_next_id := S (graph_next_id g);
                      graph_pvalues := graph_pvalues g ++ [obj_id out];
                      graph_applied :=
                        graph_applied g
                        ++ [{| ap_transform := pt; ap_input := pv |}] |});;
  ret out.

(** In the step from [g] to [g'] one node was registered, applying [c] to
    [pcoll], and [marker] wraps its output, the one new value, without
    default. *)
Definition wraps_application (g g' : Graph) (c : combiner)
    (pcoll : PCollection) (marker : AsSingleton) : Prop :=
  default_value marker = NO_DEFAULT
  /\ obj_id (pvalue marker) = graph_next_id g
  /\ graph_next_id g' = S (graph_next_id g)
  /\ graph_pvalues g' = graph_pvalues g ++ [obj_id (pvalue marker)]
  /\ producer (pvalue marker) = Some (length (graph_applied g))
  /\ graph_applied g'
     = graph_applied g ++ [{| ap_transform := c; ap_input := pcoll |}].

Section CombinerOutput.

(** Elements of type [E]; for [ToDict], [entry] reads an element as its
    key and its value. *)
Context {E K V : Type} `{Countable K}.
Variable entry : E -> K * V.

Inductive folded : Type :=
| TheList (l : list E)
| TheDict (d : gmap K V).

(** Modelled from the spec: what a runner computes for the output of such a
    node from the elements of its input (of one window).  "a combiner that
    folds the source Collection into one list/one key-unique map";
    "[AsDict] additionally requires source elements to be two-part
    key/value entries"; "duplicate keys ... (policy: last writer wins". *)
Definition combiner_output (c : combiner) (xs : list E) : list folded :=
  match c with
  | ToList _ => [TheList xs]
  | ToDict _ =>
      [TheDict (fold_left (fun d x => <[ fst (entry x) := snd (entry x) ]> d)
                          xs ∅)]
  end.

End CombinerOutput.

(** ** The bounded top-N combiner *)

Section TopCombineFn.

(** Modelled from the spec: [combiners.TopCombineFn(n, compare)]
    (combiners.py is not part of the sources at hand).  "A bounded top-N
    combiner additionally takes a strict-ordering comparator and retains
    only the N greatest elements under that ordering, ties broken by
    arbitrary but stable insertion order during merge."  "The top-N
    combiner's accumulator is the current best-N sequence under the supplied
    ordering; merging two accumulators is concatenate, sort by the ordering,
    truncate to N."  [lessthan a b] is the comparator's answer to "a < b";
    the sequence runs from greatest to least. *)
Context {A : Type}.
Variable n : nat.
Variable lessthan : A -> A -> bool.

(** One step of a stable sort, greatest first: [x] goes in front of the
    first element that is less than [x], so behind everything it ties
    with. *)
Fixpoint insert_desc (x : A) (l : list A) : list A :=
  match l with
  | [] => [x]
  | y :: l' => if lessthan y x then x :: y :: l' else y :: insert_desc x l'
  end.

Definition sort_desc (l : list A) : list A :=
  fold_left (fun acc x => insert_desc x acc) l [].

Definition create_accumulator : list A := [].

Definition merge_accumulators (a b : list A) : list A :=
  take n (sort_desc (a ++ b)).

(** Folding one element in keeps the best-N sequence: the element joins the
    sequence, which is sorted and truncated again. *)
Definition add_input (acc : list A) (x : A) : list A :=
  take n (sort_desc (acc ++ [x])).

Definition extract_output (acc : list A) : list A := acc.

(** A way of combining a collection: each shard folds its elements, in the
    order it meets them, into an accumulator of its own, and accumulators
    are merged two by two in any bracketing and order. *)
Inductive plan : Type :=
| Shard (elements : list A)
| Merge (p1 p2 : plan).

Fixpoint plan_elements (p : plan) : list A :=
  match p with
  | Shard l => l
  | Merge p1 p2 => plan_elements p1 ++ plan_elements p2
  end.

Fixpoint run_plan (p : plan) : list A :=
  match p with
  | Shard l => fold_left add_input l create_accumulator
  | Merge p1 p2 => merge_accumulators (run_plan p1) (run_plan p2)
  end.

(** All elements through one accumulator. *)
Definition combine_single (l : list A) : list A :=
  extract_output (fold_left add_input l create_accumulator).

Definition combine_plan (p : plan) : list A := extract_output (run_plan p).

(** The best [n] of a list. *)
Definition top (l : list A) : list A := take n (sort_desc l).

(** [compare] is a strict ordering. *)
Definition strict_ordering : Prop :=
  (forall x, lessthan x x = false)
  /\ (forall x y z, lessthan x y = true -> lessthan y z = true ->
                   lessthan x z = true).

(** No two different elements of [l] tie under [compare]. *)
Definition no_ties (l : list A) : Prop :=
  forall x y, x ∈ l -> y ∈ l ->
    lessthan x y = false -> lessthan y x = false -> x = y.

End TopCombineFn.
Arguments plan : clear implicits.

(** The word counts of [WordCountTest.WORDS] as (count, word) pairs, and
    the ordering by count. *)
Definition word_counts : list (Z * string) :=
  [(3, "to"); (2, "this"); (1, "that")]%string.

Definition by_count (a b : Z * string) : bool := fst a <? fst b.

(** ** Windows and windowed collections *)

(** Event time is held exactly, as a whole number of microseconds; the
    timestamps of the example are decimal numbers of seconds with at most
    three decimals. *)
Definition Timestamp := Z.

Definition of_seconds (s : Z) : Timestamp := s * 1000000.
Definition of_millis (ms : Z) : Timestamp := ms * 1000.

Inductive BoundedWindow : Type :=
| GlobalWindow
| IntervalWindow (start end_ : Timestamp).

#[global] Instance BoundedWindow_eq_dec : EqDecision BoundedWindow.
Proof. solve_decision. Defined.

Definition MIN_TIMESTAMP : Timestamp := - 2 ^ 63.
Definition MAX_TIMESTAMP : Timestamp := 2 ^ 63 - 1.

Definition window_start (w : BoundedWindow) : Timestamp :=
  match w with GlobalWindow => MIN_TIMESTAMP | IntervalWindow s _ => s end.
Definition window_end (w : BoundedWindow) : Timestamp :=
  match w with GlobalWindow => MAX_TIMESTAMP | IntervalWindow _ e => e end.

Inductive WindowFn : Type :=
| GlobalWindows
| FixedWindows (size : Timestamp)
| Sessions (gap_size : Timestamp).

(** Modelled from the spec: window assignment (window.py is not part of the
    sources at hand).  "Fixed window: non-overlapping, equal-length
    intervals aligned to a global origin; each element's timestamp maps
    deterministically to exactly one window."  "Session window: ... initially
    one window per element, span [timestamp, timestamp + gap)." *)
Definition assign (wf : WindowFn) (t : Timestamp) : list BoundedWindow :=
  match wf with
  | GlobalWindows => [GlobalWindow]
  | FixedWindows size =>
      let start := t - t `mod` size in [IntervalWindow start (start + size)]
  | Sessions gap => [IntervalWindow t (t + gap)]
  end.

(** Modelled from the spec: session merging.  "repeatedly unions any two
    windows whose spans overlap, until a fixed point ... (standard
    interval-merge: sort by start, sweep, union if next start < current
    end)." *)
Fixpoint insert_by_start (w : BoundedWindow) (ws : list BoundedWindow)
  : list BoundedWindow :=
  match ws with
  | [] => [w]
  | w' :: ws' =>
      if window_start w <? window_start w' then w :: w' :: ws'
      else w' :: insert_by_start w ws'
  end.

Definition sort_by_start (ws : list BoundedWindow) : list BoundedWindow :=
  foldr insert_by_start [] ws.

Fixpoint sweep (cur : BoundedWindow) (ws : list BoundedWindow)
  : list BoundedWindow :=
  match ws with
  | [] => [cur]
  | w :: ws' =>
      if window_start w <? window_end cur
      then sweep (IntervalWindow (window_start cur)
                    (Z.max (window_end cur) (window_end w))) ws'
      else cur :: sweep w ws'
  end.

Definition merge_windows (ws : list BoundedWindow) : list BoundedWindow :=
  match sort_by_start ws with
  | [] => []
  | w :: ws' => sweep w ws'
  end.

(** The merged window an original window ended up in. *)
Definition merged_into (merged : list BoundedWindow) (w : BoundedWindow)
  : BoundedWindow :=
  default w
    (List.find (fun m => (window_start m <=? window_start w)
                         && (window_end w <=? window_end m)) merged).

(** The contents of a Collection once computed: the windowing strategy it
    carries and its windowed elements. *)
Record Contents (V : Type) : Type := mkContents {
  windowing : WindowFn;
  items : list (WindowedValue V Timestamp BoundedWindow)
}.
Arguments mkContents {V} windowing items.
Arguments windowing {V} _.
Arguments items {V} _.

(** What a [DoFn.process] sees and what it yields: a plain value, or a
    [window.TimestampedValue]. *)
Record DoFnContext (V : Type) : Type := mkContext {
  element : V;
  ctx_timestamp : Timestamp;
  ctx_windows : list BoundedWindow
}.
Arguments mkContext {V} element ctx_timestamp ctx_windows.
Arguments element {V} _.
Arguments ctx_timestamp {V} _.
Arguments ctx_windows {V} _.

Inductive emitted (V : Type) : Type :=
| Plain (v : V)
| TimestampedValue (v : V) (t : Timestamp).
Arguments Plain {V} v.
Arguments TimestampedValue {V} v t.

#[global] Instance result_ret : MRet result := @Ok.
#[global] Instance result_bind : MBind result := fun A B k m =>
  match m with Ok a => k a | Raise e => Raise e end.

(** [mapM] in the [result] monad, left to right. *)
Fixpoint collect {A B} (f : A -> result (list B)) (l : list A) : result (list B) :=
  match l with
  | [] => Ok []
  | x :: l' => ys ← f x; zs ← collect f l'; Ok (ys ++ zs)
  end.

Section Transforms.
Context {V V' : Type}.

(** Modelled from the spec: the primitive transforms as a runner executes
    them (transforms/core.py and the runners are not part of the sources at
    hand).  An element a [DoFn] yields keeps the timestamp and windows of
    the element being processed; a [TimestampedValue] carries its own
    timestamp and is assigned windows by the Collection's windowing. *)
Definition Create (values : list V) : Contents V :=
  {| windowing := GlobalWindows;
     items := map (fun v => mkWindowedValue v MIN_TIMESTAMP [GlobalWindow])
                     values |}.

Definition ParDo (process : DoFnContext V -> result (list (emitted V')))
    (pcoll : Contents V) : result (Contents V') :=
  out ← collect (fun wv =>
           ys ← process (mkContext (value wv) (timestamp wv) (windows wv));
           Ok (map (fun y => match y with
                             | Plain v =>
                                 mkWindowedValue v (timestamp wv) (windows wv)
                             | TimestampedValue v t =>
                                 mkWindowedValue v t (assign (windowing pcoll) t)
                             end) ys))
         (items pcoll);
  Ok {| windowing := windowing pcoll; items := out |}.

Definition Filter (fn : V -> bool) (pcoll : Contents V) : Contents V :=
  {| windowing := windowing pcoll;
     items := List.filter (fun wv => fn (value wv)) (items pcoll) |}.

(** "Re-windowing ... discards prior window assignment and timestamps are
    retained." *)
Definition WindowInto (wf : WindowFn) (pcoll : Contents V) : Contents V :=
  {| windowing := wf;
     items := map (fun wv => mkWindowedValue (value wv) (timestamp wv)
                                   (assign wf (timestamp wv)))
                     (items pcoll) |}.

End Transforms.

Section Grouping.
Context {K V : Type} `{EqDecision K}.

(** Modelled from the spec: grouping by key and window.  "Downstream
    grouping and combining always operate per final window (and per key,
    where applicable)"; "Session assignment requires a global merge pass per
    key".  A group is stamped with the end of its window. *)
Definition key_entries (k : K)
    (l : list (WindowedValue (K * V) Timestamp BoundedWindow))
  : list (BoundedWindow * V) :=
  flat_map (fun wv => if decide (fst (value wv) = k)
                      then map (fun w => (w, snd (value wv))) (windows wv)
                      else [])
           l.

Definition merge_entries (wf : WindowFn) (es : list (BoundedWindow * V))
  : list (BoundedWindow * V) :=
  match wf with
  | Sessions _ =>
      let merged := merge_windows (map fst es) in
      map (fun e => (merged_into merged (fst e), snd e)) es
  | _ => es
  end.

(** Distinct items in order of first occurrence. *)
Fixpoint distinct {A} `{EqDecision A} (l : list A) : list A :=
  match l with
  | [] => []
  | x :: l' => x :: List.filter (fun y => bool_decide (y ≠ x)) (distinct l')
  end.

Definition GroupByKey (pcoll : Contents (K * V)) : Contents (K * list V) :=
  {| windowing := windowing pcoll;
     items :=
       flat_map (fun k =>
           let es := merge_entries (windowing pcoll)
                       (key_entries k (items pcoll)) in
           map (fun w =>
                  mkWindowedValue
                    (k, map snd (List.filter
                                   (fun e => bool_decide (fst e = w)) es))
                    (window_end w) [w])
               (distinct (map fst es)))
         (distinct (map (fun wv => fst (value wv)) (items pcoll))) |}.

End Grouping.

(** Modelled from the spec: [combiners.Count.PerElement()], the number of
    occurrences of each element per window ("per-key: one accumulator per
    key per window"). *)
Definition Count_PerElement {V} `{EqDecision V} (pcoll : Contents V)
  : Contents (V * Z) :=
  let keyed := {| windowing := windowing pcoll;
                  items := map (fun wv => mkWindowedValue (value wv, 1)
                                               (timestamp wv) (windows wv))
                                  (items pcoll) |} in
  let grouped := GroupByKey keyed in
  {| windowing := windowing grouped;
     items := map (fun wv => mkWindowedValue
                                  (fst (value wv), foldr Z.add 0 (snd (value wv)))
                                  (timestamp wv) (windows wv))
                     (items grouped) |}.

(** Modelled from the spec: [CombineGlobally(TopCombineFn(n, compare))
    .without_defaults()].  "global (one accumulator across the whole
    per-window group, producing one result per window)"; "an explicit
    without-defaults mode which emits nothing for an empty window"; "any
    runner may build accumulators on physically distributed data and merge
    them later": [sharding] is the runner's choice of a plan for the
    elements of a window. *)
Definition CombineGlobally_Top_without_defaults {V}
    (sharding : list V -> plan V) (n : nat)
    (compare : V -> V -> bool) (pcoll : Contents V) : Contents (list V) :=
  {| windowing := windowing pcoll;
     items :=
       map (fun w =>
              mkWindowedValue
                (combine_plan n compare
                   (sharding
                      (map value
                         (List.filter (fun wv => bool_decide (w ∈ windows wv))
                                      (items pcoll)))))
                (window_end w) [w])
           (distinct (flat_map windows (items pcoll))) |}.

(** A sharding hands every element of the window to exactly one shard. *)
Definition is_sharding {V} (sharding : list V -> plan V) : Prop :=
  forall l, plan_elements (sharding l) ≡ₚ l.

(** ** The example pipeline: top_wikipedia_sessions.py *)

Definition ONE_HOUR_IN_SECONDS : Z := 3600.
Definition THIRTY_DAYS_IN_SECONDS : Z := 30 * 24 * ONE_HOUR_IN_SECONDS.

(** What [json.loads] returns for a table row: a dictionary.  An element of
    the input Collection is the JSON text of one row; it is held here as
    the object [json.loads] makes of it.  The entry ['timestamp'], when the
    row has one, is a float, as [json.dumps] writes those of the test, and
    is kept apart from the other entries, whose values are [null], integers
    or strings. *)
Inductive json : Type :=
| JNull
| JInt (n : Z)
| JString (s : string).

#[global] Instance json_eq_dec : EqDecision json.
Proof. solve_decision. Defined.

(** [row_timestamp] is [table_row['timestamp']], when the row has that
    entry; [row_fields] holds the entries under the other keys. *)
Record table_row : Type := mkTableRow {
  row_timestamp : option Timestamp;
  row_fields : gmap string json
}.

(** ** [str] of a float

    A timestamp of the model is an exact decimal; the float it stands for
    is the double nearest to it, and [str] prints a float with twelve
    significant digits ([%.12g]), without trailing zeros, in exponent
    notation when the decimal exponent is below -4 or at least 12, and with
    [.0] added to a numeral that would read as an integer. *)

(** The integer nearest to [n / d], for [0 < d]; a tie goes to the even
    one. *)
Definition round_half_even (n d : Z) : Z :=
  let q := n / d in
  let r := n `mod` d in
  if 2 * r <? d then q
  else if d <? 2 * r then q + 1
  else if Z.even q then q else q + 1.

(** The fraction [n / d] multiplied by [base ^ k]. *)
Definition scale (n d base k : Z) : Z * Z :=
  if 0 <=? k then (n * base ^ k, d) else (n, d * base ^ (- k)).

(** The double nearest to [n / d], for positive [n] and [d]: the mantissa
    [m] and the exponent [e] of the value [m * 2 ^ e], with
    [2 ^ 52 <= m < 2 ^ 53], or with a smaller [m] and [e = -1074] for the
    subnormal doubles and zero.  An exponent above 971 is past the greatest
    double. *)
Definition nearest_double (n d : Z) : Z * Z :=
  let e0 := Z.log2 n - Z.log2 d - 52 in
  let '(n0, d0) := scale n d 2 (- e0) in
  let e := Z.max (if n0 <? d0 * 2 ^ 52 then e0 - 1 else e0) (- 1074) in
  let '(n1, d1) := scale n d 2 (- e) in
  let m := round_half_even n1 d1 in
  if m =? 2 ^ 53 then (2 ^ 52, e + 1) else (m, e).

(** The value of the double nearest to a rational number. *)
Definition float_value (q : Q) : Q :=
  if Qnum q =? 0 then 0%Q
  else
    let '(m, e) := nearest_double (Z.abs (Qnum q)) (Zpos (Qden q)) in
    let '(n, d) := scale (Z.sgn (Qnum q) * m) 1 2 e in
    Qmake n (Z.to_pos d).

(** The number of decimal digits of a positive integer. *)
Definition ndigits (n : Z) : Z := Z.of_nat (String.length (str_int n)).

(** The character [0]. *)
Definition zero : Ascii.ascii := Ascii.ascii_of_nat 48.

Fixpoint drop_zeros (l : list Ascii.ascii) : list Ascii.ascii :=
  match l with
  | c :: l' => if bool_decide (c = zero) then drop_zeros l' else l
  | [] => []
  end.

(** A numeral without its trailing zeros. *)
Definition strip_zeros (s : string) : string :=
  String.string_of_list_ascii
    (rev (drop_zeros (rev (String.list_ascii_of_string s)))).

Definition zeros (n : Z) : string :=
  String.string_of_list_ascii (replicate (Z.to_nat n) zero).

(** The exponent of the exponent notation: a sign and at least two
    digits. *)
Definition str_exponent (x : Z) : string :=
  (if x <? 0 then "-" else "+")
  +:+ (if Z.abs x <? 10 then "0" else "") +:+ str_int (Z.abs x).

(** [str] of the positive double [m * 2 ^ e]. *)
Definition str_double (m e : Z) : string :=
  let '(p, q) := scale m 1 2 e in
  let x0 := ndigits p - ndigits q in
  let '(p0, q0) := scale p q 10 (- x0) in
  let x := if p0 <? q0 then x0 - 1 else x0 in
  let '(p1, q1) := scale p q 10 (11 - x) in
  let r := round_half_even p1 q1 in
  let '(r, x) := if r =? 10 ^ 12 then (10 ^ 11, x + 1) else (r, x) in
  let digits := str_int r in
  if (x <? -4) || (12 <=? x) then
    let frac := strip_zeros (String.substring 1 11 digits) in
    String.substring 0 1 digits
    +:+ (if decide (frac = "") then "" else "." +:+ frac)
    +:+ "e" +:+ str_exponent x
  else if 0 <=? x then
    let frac := strip_zeros (String.substring (Z.to_nat (x + 1))
                                              (Z.to_nat (11 - x)) digits) in
    String.substring 0 (Z.to_nat (x + 1)) digits
    +:+ "." +:+ (if decide (frac = "") then "0" else frac)
  else
    "0." +:+ zeros (- x - 1) +:+ strip_zeros digits.

(** [str(x)] for the float of a timestamp; past the greatest double the
    float is [inf]. *)
Definition str_float (t : Timestamp) : string :=
  if t =? 0 then "0.0"
  else
    let '(m, e) := nearest_double (Z.abs t) 1000000 in
    (if t <? 0 then "-" else "")
    +:+ (if 971 <? e then "inf" else str_double m e).

(** [str(w)] for a window. *)
Definition str_window (w : BoundedWindow) : string :=
  match w with
  | GlobalWindow => "GlobalWindow"
  | IntervalWindow s e => "[" +:+ str_float s +:+ ", " +:+ str_float e +:+ ")"
  end.

(** [', '.join([str(w) for w in context.windows])]. *)
Definition join_windows (ws : list BoundedWindow) : string :=
  String.concat ", " (map str_window ws).

(** [ExtractUserAndTimestampDoFn.process]. *)
Definition ExtractUserAndTimestampDoFn (context : DoFnContext table_row)
  : result (list (emitted json)) :=
  let table_row := element context in
  match row_fields table_row !! "contributor_username" with
  | Some user_name =>
      match row_timestamp table_row with
      | None => Raise KeyError
      | Some timestamp => Ok [TimestampedValue user_name timestamp]
      end
  | None => Ok []
  end.

(** [ComputeSessions.apply]. *)
Definition ComputeSessions (pcoll : Contents json) : Contents (json * Z) :=
  Count_PerElement
    (WindowInto (Sessions (of_seconds ONE_HOUR_IN_SECONDS)) pcoll).

(** The comparator of [TopPerMonth]:
    [lambda first, second: first[1] < second[1]]. *)
Definition fewer_edits (first second : string * Z) : bool :=
  snd first <? snd second.

(** [TopPerMonth.apply], under the runner's sharding of the combine. *)
Definition TopPerMonth (sharding : list (string * Z) -> plan (string * Z))
    (pcoll : Contents (string * Z)) : Contents (list (string * Z)) :=
  CombineGlobally_Top_without_defaults sharding 10 fewer_edits
    (WindowInto (FixedWindows (of_seconds THIRTY_DAYS_IN_SECONDS)) pcoll).

(** [SessionsToStringsDoFn.process]: [context.element[0] + ' : '] is a
    [TypeError] unless the user is a string. *)
Definition SessionsToStringsDoFn (context : DoFnContext (json * Z))
  : result (list (emitted (string * Z))) :=
  match fst (element context) with
  | JString user =>
      Ok [Plain (user +:+ " : " +:+ join_windows (ctx_windows context),
                 snd (element context))]
  | _ => Raise TypeError
  end.

(** [FormatOutputDoFn.process]. *)
Definition FormatOutputDoFn (context : DoFnContext (list (string * Z)))
  : result (list (emitted string)) :=
  Ok (map (fun kv =>
             let session := fst kv in
             let count := snd kv in
             Plain (session +:+ " : " +:+ str_int count +:+ " : "
                    +:+ join_windows (ctx_windows context)))
          (element context)).

(** The sampling threshold is whatever number [ComputeTopSessions] was
    constructed with: an integer, or a float.  [NumFloat q] is the float of
    value [q]; the float that a numeral such as [0.1] denotes is not the
    rational of that numeral but the double nearest to it. *)
Inductive number : Type :=
| NumInt (k : Z)
| NumFloat (q : Q).

Definition float_literal (q : Q) : number := NumFloat (float_value q).

(** In [sys.maxint * threshold] with a float threshold [sys.maxint] becomes
    the nearest double, [2 ^ 63], and the product of a double with a power
    of two is exact. *)
Definition maxint_float : Q := inject_Z (2 ^ 63).

Section Execution.

(** Python's [hash] is not part of the program: any function into the
    machine integers.  Neither is the runner's sharding of the top-N
    combine. *)
Variable hash : json -> Z.
Variable sharding : list (string * Z) -> plan (string * Z).

(** The sampling predicate
    [lambda x: abs(hash(x)) <= sys.maxint * self.sampling_threshold]; an
    integer and a float are compared by their values. *)
Definition sampled (sampling_threshold : number) (x : json) : bool :=
  match sampling_threshold with
  | NumInt k => Z.abs (hash x) <=? maxint * k
  | NumFloat q =>
      Qle_bool (inject_Z (Z.abs (hash x))) (Qmult maxint_float q)
  end.

(** [ComputeTopSessions.apply]. *)
Definition ComputeTopSessions (sampling_threshold : number)
    (pcoll : Contents table_row) : result (Contents string) :=
  users ← ParDo ExtractUserAndTimestampDoFn pcoll;
  let sample := Filter (sampled sampling_threshold) users in
  let sessions := ComputeSessions sample in
  strings ← ParDo SessionsToStringsDoFn sessions;
  let top := TopPerMonth sharding strings in
  ParDo FormatOutputDoFn top.

End Execution.

(** ** top_wikipedia_sessions_test.py *)

(** [json.dumps({'timestamp': t, 'contributor_username': user})], read
    back. *)
Definition edit (t : Timestamp) (user : string) : table_row :=
  {| row_timestamp := Some t;
     row_fields := {[ "contributor_username"%string := JString user ]} |}.

Definition EDITS : list table_row :=
  [ edit (of_millis 0) "user1";
    edit (of_millis 1) "user1";
    edit (of_millis 2) "user1";
    edit (of_millis 0) "user2";
    edit (of_millis 1) "user2";
    edit (of_millis 3601) "user2";
    edit (of_millis 3602) "user2";
    edit (of_seconds (2 * 3600)) "user2";
    edit (of_millis (35 * 24 * 3600)) "user3" ].

Definition EXPECTED : list string :=
  [ "user1 : [0.0, 3600.002) : 3 : [0.0, 2592000.0)";
    "user2 : [0.0, 3603.602) : 4 : [0.0, 2592000.0)";
    "user2 : [7200.0, 10800.0) : 1 : [0.0, 2592000.0)";
    "user3 : [3024.0, 6624.0) : 1 : [0.0, 2592000.0)" ].

(** [contains_in_any_order]: equality of [collections.Counter]s is equality
    as multisets. *)
Definition contains_in_any_order (value expected : list string) : result bool :=
  if decide (value ≡ₚ expected) then Ok true else Raise ValueError.

(** ** Sample objects *)

(** A tuple with side tags ['a'] and ['b'] and main tag ['main'], as
    [ParDo(...).with_outputs('a', 'b', main='main')] builds it. *)
Definition tuple_ab : @Heap unit :=
  DoOutputsTuple_init 0 {| runner := None; pvalues := [] |}
    {| side_output_tags := ∅ |} (Some [TagStr "a"; TagStr "b"]) (TagStr "main").

(** A tuple built without declared side tags. *)
Definition tuple_open : @Heap unit :=
  DoOutputsTuple_init 0 {| runner := None; pvalues := [] |}
    {| side_output_tags := ∅ |} None (TagStr "main").

Definition some_pcoll : PCollection :=
  {| obj_id := 0; tag_of := TagNone; element_type := None; producer := None |}.

(** A runner that counts its calls. *)
#[local] Instance counting_runner : RunnerInterface unit nat Z Z unit := {|
  run := fun _ _ _ calls => (Ok tt, S calls);
  get_pvalue := fun _ _ calls => (Ok [], S calls)
|}.

(** A runner that splits every window's elements into two shards and merges
    the second into the first. *)
Definition two_shards {V} (l : list V) : plan V :=
  Merge (Shard (take 2 l)) (Shard (drop 2 l)).

(** ** More of pvalue.py *)

(** The exceptions of the code below: those above, and two more builtins. *)
Inductive exception : Type :=
| Builtin (e : exn)
| AttributeError
| IndexError
| SystemExit.

Inductive outcome (A : Type) : Type :=
| Returns (a : A)
| Raises (e : exception).
Arguments Returns {A} a.
Arguments Raises {A} e.

Definition ME (S A : Type) : Type := S -> outcome A * S.

#[global] Instance ME_ret {S} : MRet (ME S) := fun A a s => (Returns a, s).
#[global] Instance ME_bind {S} : MBind (ME S) := fun A B k m s =>
  match m s with
  | (Returns a, s') => k a s'
  | (Raises e, s') => (Raises e, s')
  end.

Definition raises {S A} (e : exception) : ME S A := fun s => (Raises e, s).

(** A computation that raises only the exceptions above, seen among all. *)
Definition lift {S A} (m : M S A) : ME S A :=
  fun s => match m s with
           | (Ok a, s') => (Returns a, s')
           | (Raise e, s') => (Raises (Builtin e), s')
           end.

(** [SideOutputValue]: [isinstance(tag, basestring)] holds of strings
    only. *)
Record SideOutputValue (V : Type) : Type := mkSideOutputValue {
  sov_tag : tag;
  sov_value : V
}.
Arguments mkSideOutputValue {V} sov_tag sov_value.
Arguments sov_tag {V} _.
Arguments sov_value {V} _.

Definition is_basestring (t : tag) : bool :=
  match t with TagStr _ => true | _ => false end.

(** [SideOutputValue.__init__]. *)
Definition SideOutputValue_init {V} (t : tag) (v : V)
  : result (SideOutputValue V) :=
  if negb (is_basestring t) then Raise TypeError
  else Ok {| sov_tag := t; sov_value := v |}.

Section Iteration.
Context {Runner : Type}.

(** The lookups [self[t]] for the tags of a sequence, in order, up to the
    first that raises. *)
Fixpoint getitems (ts : list tag) : M (@Heap Runner) (list PCollection) :=
  match ts with
  | [] => ret []
  | t :: ts' => pc ← getitem t; pcs ← getitems ts'; ret (pc :: pcs)
  end.

(** [DoOutputsTuple.__iter__], consumed to the end as [list(t)] or an
    unpacking does: the main output first when the main tag is not [None],
    then [for tag in self._tags], which is a [TypeError] on [None]. *)
Definition DoOutputsTuple_iter : M (@Heap Runner) (list PCollection) :=
  h ← get;
  main ← (if bool_decide (_main_tag (self h) ≠ TagNone)
          then pc ← getitem (_main_tag (self h)); ret [pc]
          else ret []);
  h1 ← get;
  match _tags (self h1) with
  | None => raise TypeError
  | Some tags => rest ← getitems tags; ret (main ++ rest)
  end.

(** [DoOutputsTuple.__getattr__]: attribute names are strings. *)
Definition DoOutputsTuple_getattr (name : string) : M (@Heap Runner) PCollection :=
  getitem (TagStr name).

(** One state of the graph extends another: what the tuple was constructed
    with is the same, and everything created, registered or cached is still
    there. *)
Definition extends (h h' : @Heap Runner) : Prop :=
  _tags (self h') = _tags (self h)
  /\ _main_tag (self h') = _main_tag (self h)
  /\ dot_producer (self h') = dot_producer (self h)
  /\ runner (the_pipeline h') = runner (the_pipeline h)
  /\ (next_id h <= next_id h')%nat
  /\ pvalues (the_pipeline h) `prefix_of` pvalues (the_pipeline h')
  /\ side_output_tags (the_transform h) ⊆ side_output_tags (the_transform h')
  /\ _pcolls (self h) ⊆ _pcolls (self h').

(** What holds of the cache in every state reached by lookups from a new
    tuple whose producer was bound to [ap]. *)
Definition well_kept (ap : option applied_ptransform) (h : @Heap Runner) : Prop :=
  dot_producer (self h) = ap
  /\ forall k pc, _pcolls (self h) !! k = Some pc ->
       tag_of pc = k /\ producer pc = ap /\ element_type pc = None
       /\ obj_id pc ∈ pvalues (the_pipeline h)
       /\ (k ≠ TagNone -> k ∈ side_output_tags (the_transform h))
       /\ (forall i, is_int i = true -> k ≠ TagInt i).

End Iteration.

Section ExplicitTuple.
Context {Runner RS V T W : Type} `{!RunnerInterface Runner RS V T W}.

(** What [ExplicitDoOutputsTuple.__getitem__] reaches: the graph of the
    deferred tuple it wraps, and the runner's state. *)
Record ExplicitState : Type := mkExplicitState {
  deferred : @Heap Runner;
  explicit_runner_state : RS
}.

Definition in_deferred {A} (m : M (@Heap Runner) A) : M ExplicitState A :=
  fun s => let '(r, h) := m (deferred s) in
           (r, {| deferred := h;
                  explicit_runner_state := explicit_runner_state s |}).

Definition with_runner_state {A} (m : M RS A) : M ExplicitState A :=
  fun s => let '(r, rs) := m (explicit_runner_state s) in
           (r, {| deferred := deferred s; explicit_runner_state := rs |}).

(** [ExplicitDoOutputsTuple.__getitem__]: [self._deferred[tag]], then
    [self._deferred._pipeline.runner.get_pvalue(pcoll)], an
    [AttributeError] on a pipeline without runner. *)
Definition ExplicitDoOutputsTuple_getitem (t : tag) : ME ExplicitState (list V) :=
  pcoll ← lift (in_deferred (getitem t));
  s ← lift get;
  match runner (the_pipeline (deferred s)) with
  | None => raises AttributeError
  | Some r =>
      wvs ← lift (with_runner_state (get_pvalue r pcoll));
      mret (_get_un_windowed_value wvs)
  end.

End ExplicitTuple.

Section Windowing.

(** [PCollection.windowing]: the attribute [_windowing] is set on first
    read from [self.producer.transform.get_windowing(self.producer.inputs)],
    a call into the transform that acts on some state [E] of its own. *)
Context {Wg E : Type}.
Variable get_windowing : applied_ptransform -> ME E Wg.

Record PCollectionObject : Type := mkPCollectionObject {
  pvalue_fields : PCollection;
  _windowing : option Wg;
  transform_state : E
}.

Definition in_transform {A} (m : ME E A) : ME PCollectionObject A :=
  fun s => let '(r, e) := m (transform_state s) in
           (r, {| pvalue_fields := pvalue_fields s;
                  _windowing := _windowing s;
                  transform_state := e |}).

Definition set_windowing (w : Wg) : ME PCollectionObject unit :=
  fun s => (Returns tt, {| pvalue_fields := pvalue_fields s;
                           _windowing := Some w;
                           transform_state := transform_state s |}).

Definition PCollection_windowing : ME PCollectionObject Wg :=
  s ← lift get;
  match _windowing s with
  | Some w => mret w
  | None =>
      match producer (pvalue_fields s) with
      | None => raises AttributeError
      | Some ap =>
          w ← in_transform (get_windowing ap);
          set_windowing w;;
          mret w
      end
  end.

End Windowing.

Section Apply.

(** [PValue.apply], called with positional and keyword arguments.
    [pipeline.apply] is not part of the sources at hand: a computation on
    the graph [G] taking the positional and the keyword arguments. *)
Context {ptransform G R : Type}.

Inductive argument : Type :=
| ArgStr (s : string)
| ArgTransform (pt : ptransform)
| ArgPValue (pv : PCollection)
| ArgOther (v : pyval).

Variable Pipeline_apply_star :
  list argument -> list (string * argument) -> M G R.

Definition is_str (a : argument) : bool :=
  match a with ArgStr _ => true | _ => false end.

(** [list.insert(i, x)]: past the end, [x] is appended. *)
Definition list_insert_at {A} (i : nat) (x : A) (l : list A) : list A :=
  take i l ++ x :: drop i l.

Definition PValue_apply (pv : PCollection) (args : list argument)
    (kwargs : list (string * argument)) : ME G R :=
  match args with
  | [] => raises IndexError
  | a0 :: rest =>
      let args := if is_str a0 then rest else args in
      let arglist := list_insert_at 1 (ArgPValue pv) args in
      lift (Pipeline_apply_star arglist kwargs)
  end.

End Apply.
Arguments argument : clear implicits.

(** ** utils/options.py *)

Section Options.

(** Option values are opaque, and so are the option classes.  [argparse] is
    not part of the program: [parse_known_args cls flags] stands for the
    namespace that the parser built from the [_add_argparse_args] of the
    classes of [cls]'s mro below [PipelineOptions] makes of [flags] (of
    [sys.argv] for [None]), and is [None] when the parser exits instead. *)
Context {Val klass : Type}.
Variable parse_known_args :
  klass -> option (list string) -> option (gmap string Val).

(** Dictionaries are shared by reference: the store holds them, an options
    object holds the reference of its [_all_options]. *)
Record OptionsStore : Type := mkOptionsStore {
  dicts : gmap nat (gmap string Val);
  next_dict : nat
}.

Record PipelineOptions : Type := mkPipelineOptions {
  options_class : klass;
  _flags : option (list string);
  _all_options : nat;
  _visible_options : gmap string Val
}.

Definition dict_at (st : OptionsStore) (ref : nat) : gmap string Val :=
  default ∅ (dicts st !! ref).

Definition new_dict (d : gmap string Val) : ME OptionsStore nat :=
  fun st => (Returns (next_dict st),
             {| dicts := <[ next_dict st := d ]> (dicts st);
                next_dict := S (next_dict st) |}).

Definition dict_setitem (ref : nat) (name : string) (value : Val)
  : ME OptionsStore unit :=
  fun st => (Returns tt,
             {| dicts := <[ ref := <[ name := value ]> (dict_at st ref) ]>
                           (dicts st);
                next_dict := next_dict st |}).

(** [PipelineOptions.__init__(self, flags=None, **kwargs)]. *)
Definition PipelineOptions_init (cls : klass) (flags : option (list string))
    (kwargs : gmap string Val) : ME OptionsStore PipelineOptions :=
  ref ← new_dict kwargs;
  match parse_known_args cls flags with
  | None => raises SystemExit
  | Some visible =>
      mret {| options_class := cls; _flags := flags; _all_options := ref;
              _visible_options := visible |}
  end.

(** [option[0] != '_']. *)
Definition starts_with_underscore (option : string) : bool :=
  match option with
  | String c _ => bool_decide (String c "" = "_")
  | EmptyString => false
  end.

(** [sorted] on strings. *)
Fixpoint insert_sorted (x : string) (l : list string) : list string :=
  match l with
  | [] => [x]
  | y :: l' => if String.leb x y then x :: l else y :: insert_sorted x l'
  end.

Definition sorted (l : list string) : list string := foldr insert_sorted [] l.

(** [PipelineOptions._visible_option_list].  Besides the parsed options,
    [dir] lists the attributes of the namespace's class, which all start
    with an underscore; [option[0]] is an [IndexError] on an empty name. *)
Definition _visible_option_list (self : PipelineOptions) : outcome (list string) :=
  let names := map fst (map_to_list (_visible_options self)) in
  if bool_decide (""%string ∈ names) then Raises IndexError
  else Returns (sorted (List.filter
                          (fun option => negb (starts_with_underscore option))
                          names)).

(** The options an object shows: the parsed ones whose name does not start
    with an underscore. *)
Definition shows (self : PipelineOptions) (name : string) : Prop :=
  is_Some (_visible_options self !! name)
  /\ starts_with_underscore name = false.

(** [PipelineOptions.__getattr__], which Python calls for a name that is no
    attribute of the object or of its class. *)
Definition PipelineOptions_getattr (self : PipelineOptions) (name : string)
  : ME OptionsStore Val :=
  match _visible_option_list self with
  | Raises e => raises e
  | Returns names =>
      if bool_decide (name ∈ names) then
        match _visible_options self !! name with
        | None => raises AttributeError
        | Some parsed =>
            fun st => (Returns (default parsed
                                  (dict_at st (_all_options self) !! name)), st)
        end
      else raises AttributeError
  end.

(** The three names of the first branch of [__setattr__], which [__init__]
    and [view_as] assign. *)
Definition internal_names : list string :=
  ["_flags"; "_all_options"; "_visible_options"]%string.

Definition is_internal (name : string) : bool :=
  bool_decide (name ∈ internal_names).

(** [PipelineOptions.__setattr__] for every other name. *)
Definition PipelineOptions_setattr (self : PipelineOptions) (name : string)
    (Hname : is_internal name = false) (value : Val) : ME OptionsStore unit :=
  match _visible_option_list self with
  | Raises e => raises e
  | Returns names =>
      if bool_decide (name ∈ names)
      then dict_setitem (_all_options self) name value
      else raises AttributeError
  end.

(** [PipelineOptions.view_as]. *)
Definition PipelineOptions_view_as (self : PipelineOptions) (cls : klass)
  : ME OptionsStore PipelineOptions :=
  view ← PipelineOptions_init cls (_flags self) ∅;
  mret {| options_class := options_class view;
          _flags := _flags view;
          _all_options := _all_options self;
          _visible_options := _visible_options view |}.

(** [OptionsContext]: [overrides] is an attribute of the class, one list for
    all contexts.  The options of a context are held in the order [items()]
    goes through them; their names are any but the three above. *)
Record assignment : Type := mkAssignment {
  a_name : string;
  a_public : is_internal a_name = false;
  a_value : Val
}.

Record ContextState : Type := mkContextState {
  store : OptionsStore;
  overrides : list (list assignment)
}.

Definition in_store {A} (m : ME OptionsStore A) : ME ContextState A :=
  fun s => let '(r, st) := m (store s) in
           (r, {| store := st; overrides := overrides s |}).

(** [OptionsContext.__enter__]. *)
Definition OptionsContext_enter (options : list assignment) : ME ContextState unit :=
  fun s => (Returns tt, {| store := store s;
                           overrides := overrides s ++ [options] |}).

(** [OptionsContext.__exit__]: [self.overrides.pop()]. *)
Definition OptionsContext_exit : ME ContextState unit :=
  fun s => match overrides s with
           | [] => (Raises IndexError, s)
           | _ => (Returns tt, {| store := store s;
                                  overrides := removelast (overrides s) |})
           end.

(** [with self: body]: [__exit__] runs however the body ends, and returns
    [None], so an exception of the body goes on. *)
Definition with_context {A} (options : list assignment)
    (body : ME ContextState A) : ME ContextState A :=
  fun s =>
    let '(_, s1) := OptionsContext_enter options s in
    let '(r, s2) := body s1 in
    match OptionsContext_exit s2 with
    | (Returns _, s3) => (r, s3)
    | (Raises e, s3) => (Raises e, s3)
    end.

(** [OptionsContext.__call__]: the wrapper runs [f] in the context and
    returns nothing. *)
Definition OptionsContext_call {A} (options : list assignment)
    (f : ME ContextState A) : ME ContextState unit :=
  with_context options (f ≫= fun _ => mret tt).

Fixpoint setattrs (options : PipelineOptions) (l : list assignment)
  : ME OptionsStore unit :=
  match l with
  | [] => mret tt
  | a :: l' =>
      PipelineOptions_setattr options (a_name a) (a_public a) (a_value a);;
      setattrs options l'
  end.

Fixpoint augment_with (options : PipelineOptions)
    (os : list (list assignment)) : ME OptionsStore unit :=
  match os with
  | [] => mret tt
  | override :: os' => setattrs options override;; augment_with options os'
  end.

(** [OptionsContext.augment_options]. *)
Definition OptionsContext_augment_options (options : PipelineOptions)
  : ME ContextState PipelineOptions :=
  fun s => (in_store (augment_with options (overrides s));; mret options) s.

End Options.

(** ** More sample objects *)

(** An options object showing [runner] and [job_name], with an override for
    [job_name], in a store that holds its dictionary. *)
Definition sample_namespace : gmap string pyval :=
  {[ "runner"%string := PyStr "DirectPipelineRunner";
     "job_name"%string := PyNone ]}.

Definition sample_options : @PipelineOptions pyval unit :=
  {| options_class := tt; _flags := None; _all_options := 0%nat;
     _visible_options := sample_namespace |}.

Definition sample_store : @OptionsStore pyval :=
  {| dicts := {[ 0%nat := {[ "job_name"%string := PyStr "wordcount" ]} ]};
     next_dict := 1 |}.

Definition sample_parser (cls : unit) (flags : option (list string))
  : option (gmap string pyval) :=
  Some sample_namespace.

Definition assign_runner (v : string) : @assignment pyval :=
  {| a_name := "runner"; a_public := eq_refl; a_value := PyStr v |}.

(** A transform that answers its own identity as windowing and counts the
    calls. *)
Definition counting_get_windowing (ap : applied_ptransform) : ME nat nat :=
  fun calls => (Returns ap, S calls).

(** A [pipeline.apply] that returns a fixed value and counts the calls. *)
Definition counting_apply (args : list (argument unit))
    (kwargs : list (string * argument unit)) : M nat PCollection :=
  fun calls => (Ok some_pcoll, S calls).

(* ================================================================= *)
(** * Properties *)

(** ** The models on the examples the specification gives *)

Example str_int_examples :
  str_int 0 = "0" /\ str_int 1 = "1" /\ str_int 42 = "42"
  /\ str_int (-12) = "-12".
Proof. repeat split. Qed.

Example str_float_examples :
  str_float (of_seconds 0) = "0.0"
  /\ str_float (of_millis 3600002) = "3600.002"
  /\ str_float (of_seconds THIRTY_DAYS_IN_SECONDS) = "2592000.0"
  /\ str_float (of_millis 1500) = "1.5"
  /\ str_float (of_millis (-1500)) = "-1.5"
  /\ str_float 100 = "0.0001"
  /\ str_float 50 = "5e-05"
  /\ str_float 1234567890123456 = "1234567890.12"
  /\ str_float 1234567890135 = "1234567.89013"
  /\ str_float (of_seconds 999999999999) = "999999999999.0"
  /\ str_float (of_seconds 1234567890123) = "1.23456789012e+12".
Proof. vm_compute. repeat split. Qed.

(** Floats that are written as [1.0] and [0.5] have those values; the
    float written [0.1] is a little more than a tenth, and as a sampling
    threshold it keeps a hash that the exact tenth of [2 ^ 63] would drop. *)
Example float_literal_examples :
  (float_value 1 == 1)%Q
  /\ (float_value (1 # 2) == 1 # 2)%Q
  /\ (float_value (1 # 10) == 3602879701896397 # 36028797018963968)%Q
  /\ (float_value (- (1 # 10)) == - float_value (1 # 10))%Q
  /\ sampled (fun _ => 922337203685477632) (float_literal (1 # 10)) JNull = true
  /\ sampled (fun _ => 922337203685477633) (float_literal (1 # 10)) JNull = false
  /\ sampled (fun _ => 922337203685477632) (NumFloat (1 # 10)) JNull = false.
Proof. vm_compute. repeat split. Qed.

(** "for elements with timestamps [0, 1, 2] and gap 3600, the single merged
    session spans [0, 3602)"; merging again changes nothing. *)
Example session_merge_example :
  merge_windows (flat_map (assign (Sessions 3600)) [0; 1; 2])
  = [IntervalWindow 0 3602]
  /\ merge_windows [IntervalWindow 0 3602] = [IntervalWindow 0 3602]
  /\ merge_windows [IntervalWindow 7200 10800; IntervalWindow 0 3600]
     = [IntervalWindow 0 3600; IntervalWindow 7200 10800].
Proof. repeat split. Qed.

(** "two elements with timestamps in [0, S) land in the same window; an
    element at S lands in the next window". *)
Example fixed_window_example :
  assign (FixedWindows 60) 0 = [IntervalWindow 0 60]
  /\ assign (FixedWindows 60) 59 = [IntervalWindow 0 60]
  /\ assign (FixedWindows 60) 60 = [IntervalWindow 60 120].
Proof. repeat split. Qed.

(** The three lookups of a tuple with side tags ['a'] and ['b']. *)
Example tuple_ab_lookups :
  let h := lookups [TagStr "a"; TagStr "b"; TagStr "main"; TagNone] tuple_ab in
  map_to_list (_pcolls (self h))
  = [(TagStr "a", {| obj_id := 0; tag_of := TagStr "a";
                     element_type := None; producer := None |});
     (TagStr "b", {| obj_id := 1; tag_of := TagStr "b";
                     element_type := None; producer := None |});
     (TagNone, {| obj_id := 2; tag_of := TagNone;
                  element_type := None; producer := None |})]
  /\ elements (side_output_tags (the_transform h)) = [TagStr "a"; TagStr "b"]
  /\ pvalues (the_pipeline h) = [0; 1; 2]%nat.
Proof. vm_compute. repeat split. Qed.

(** The sessions of the nine edits before they are formatted. *)
Example sessions_of_edits :
  (users ← ParDo ExtractUserAndTimestampDoFn (Create EDITS);
   Ok (map value (items (ComputeSessions users))))
  = Ok [(JString "user1", 3); (JString "user2", 4); (JString "user2", 1);
        (JString "user3", 1)].
Proof. vm_compute. reflexivity. Qed.

(** ** Output tuples: tag lookup *)

Section GraphFacts.
Context {Runner : Type}.
Implicit Types (h : @Heap Runner) (t k : tag) (pc : PCollection).

Lemma getitem_raise h t :
  resolve_tag (self h) t = None -> getitem t h = (Raise ValueError, h).
Proof.
  unfold resolve_tag, getitem, mbind, M_bind, bind, get. cbn.
  case_bool_decide; [done|].
  destruct (truthy_tags _ && not_in_tags _ _); done.
Qed.

Lemma getitem_resolved h t k :
  resolve_tag (self h) t = Some k ->
  getitem t h
  = match _pcolls (self h) !! k with
    | Some pc => (Ok pc, h)
    | None => (Ok (created h k), after_create h k)
    end.
Proof.
  unfold resolve_tag, getitem, mbind, M_bind, bind, get. cbn.
  intros Hr.
  assert (E : (if bool_decide (coerce_int_tag t = _main_tag (self h))
               then ret TagNone
               else if truthy_tags (_tags (self h))
                       && not_in_tags (coerce_int_tag t) (_tags (self h))
                    then raise ValueError else ret (coerce_int_tag t)) h
              = (Ok k, h)).
  { case_bool_decide; [now simplify_eq|].
    destruct (truthy_tags _ && not_in_tags _ _); now simplify_eq. }
  rewrite E. clear E Hr. destruct (_pcolls (self h) !! k) as [pc|]; [done|].
  unfold created, after_create. destruct h as [n p tr d]; cbn.
  case_bool_decide; reflexivity.
Qed.

Lemma getitem_hit h t k pc :
  resolve_tag (self h) t = Some k -> _pcolls (self h) !! k = Some pc ->
  getitem t h = (Ok pc, h).
Proof. intros Hr Hc. now rewrite (getitem_resolved _ _ _ Hr), Hc. Qed.

Lemma getitem_miss h t k :
  resolve_tag (self h) t = Some k -> _pcolls (self h) !! k = None ->
  getitem t h = (Ok (created h k), after_create h k).
Proof. intros Hr Hc. now rewrite (getitem_resolved _ _ _ Hr), Hc. Qed.

Lemma getitem_cases h t :
  (resolve_tag (self h) t = None /\ getitem t h = (Raise ValueError, h))
  \/ (exists k pc, resolve_tag (self h) t = Some k
        /\ _pcolls (self h) !! k = Some pc /\ getitem t h = (Ok pc, h))
  \/ (exists k, resolve_tag (self h) t = Some k
        /\ _pcolls (self h) !! k = None
        /\ getitem t h = (Ok (created h k), after_create h k)).
Proof.
  destruct (resolve_tag (self h) t) as [k|] eqn:Hr.
  - destruct (_pcolls (self h) !! k) as [pc|] eqn:Hc.
    + right; left. exists k, pc. eauto using getitem_hit.
    + right; right. exists k. eauto using getitem_miss.
  - left. eauto using getitem_raise.
Qed.

(** A lookup never changes what the tuple was constructed with. *)
Lemma getitem_static h t :
  _tags (self (snd (getitem t h))) = _tags (self h)
  /\ _main_tag (self (snd (getitem t h))) = _main_tag (self h)
  /\ dot_producer (self (snd (getitem t h))) = dot_producer (self h).
Proof.
  destruct (getitem_cases h t) as [[_ ->]|[(k & pc & _ & _ & ->)|(k & _ & _ & ->)]];
    cbn; auto.
Qed.

Lemma resolve_tag_getitem h t t' :
  resolve_tag (self (snd (getitem t' h))) t = resolve_tag (self h) t.
Proof.
  destruct (getitem_static h t') as (Ht & Hm & _).
  unfold resolve_tag. now rewrite Ht, Hm.
Qed.

(** Cached entries are never overwritten. *)
Lemma getitem_keeps h t k pc :
  _pcolls (self h) !! k = Some pc ->
  _pcolls (self (snd (getitem t h))) !! k = Some pc.
Proof.
  intros Hk.
  destruct (getitem_cases h t) as [[_ ->]|[(k' & pc' & _ & _ & ->)|(k' & _ & Hn & ->)]];
    cbn; auto.
  rewrite lookup_insert_ne; [done|]. intros ->. congruence.
Qed.

Lemma lookups_cons t ts h :
  lookups (t :: ts) h = lookups ts (snd (getitem t h)).
Proof. reflexivity. Qed.

Lemma lookups_static ts h :
  _tags (self (lookups ts h)) = _tags (self h)
  /\ _main_tag (self (lookups ts h)) = _main_tag (self h).
Proof.
  revert h. induction ts as [|t ts IH]; intros h; [done|].
  rewrite lookups_cons.
  destruct (IH (snd (getitem t h))) as [-> ->].
  destruct (getitem_static h t) as (-> & -> & _). done.
Qed.

Lemma resolve_tag_lookups ts h t :
  resolve_tag (self (lookups ts h)) t = resolve_tag (self h) t.
Proof.
  destruct (lookups_static ts h) as [Ht Hm].
  unfold resolve_tag. now rewrite Ht, Hm.
Qed.

Lemma lookups_keeps ts h k pc :
  _pcolls (self h) !! k = Some pc ->
  _pcolls (self (lookups ts h)) !! k = Some pc.
Proof.
  revert h. induction ts as [|t ts IH]; intros h Hk; [done|].
  rewrite lookups_cons. apply IH. now apply getitem_keeps.
Qed.

(** After a successful lookup the result sits in the cache under the
    resolved tag. *)
Lemma getitem_cached h t pc h' :
  getitem t h = (Ok pc, h') ->
  exists k, resolve_tag (self h) t = Some k /\ _pcolls (self h') !! k = Some pc.
Proof.
  intros Hg.
  destruct (getitem_cases h t) as [[_ E]|[(k & pc' & Hr & Hc & E)|(k & Hr & Hc & E)]];
    rewrite E in Hg; simplify_eq.
  - exists k. done.
  - exists k. split; [done|]. cbn. apply lookup_insert_eq.
Qed.

Lemma tuple_inv_init n0 (p : @Pipeline Runner) tr tags m :
  tuple_inv n0 (DoOutputsTuple_init n0 p tr tags m).
Proof.
  split; [|split]; cbn.
  - rewrite map_size_empty. lia.
  - intros k pc Hk. now rewrite lookup_empty in Hk.
  - intros k1 k2 pc1 pc2 Hk. now rewrite lookup_empty in Hk.
Qed.

Lemma tuple_inv_getitem n0 h t :
  tuple_inv n0 h -> tuple_inv n0 (snd (getitem t h)).
Proof.
  intros (Hn & Hr & Hi).
  destruct (getitem_cases h t) as [[_ ->]|[(k & pc & _ & _ & ->)|(k & _ & Hc & ->)]];
    cbn; [done..|].
  split; [|split]; cbn.
  - rewrite map_size_insert_None by done. lia.
  - intros k0 pc H. destruct (decide (k = k0)) as [E|Hne]; [subst k0|].
    + rewrite lookup_insert_eq in H. simplify_eq. cbn. lia.
    + rewrite lookup_insert_ne in H by done. apply Hr in H. lia.
  - intros k1 k2 pc1 pc2 H1 H2 Hid.
    destruct (decide (k = k1)) as [E1|Hne1], (decide (k = k2)) as [E2|Hne2];
      [congruence|subst k1|subst k2|].
    + rewrite lookup_insert_eq in H1. rewrite lookup_insert_ne in H2 by done.
      simplify_eq. apply Hr in H2. cbn in Hid. lia.
    + rewrite lookup_insert_eq in H2. rewrite lookup_insert_ne in H1 by done.
      simplify_eq. apply Hr in H1. cbn in Hid. lia.
    + rewrite lookup_insert_ne in H1, H2 by done. eauto.
Qed.

Lemma tuple_inv_lookups n0 ts h :
  tuple_inv n0 h -> tuple_inv n0 (lookups ts h).
Proof.
  revert h. induction ts as [|t ts IH]; intros h Hinv; [done|].
  rewrite lookups_cons. auto using tuple_inv_getitem.
Qed.

Lemma getitem_succeeds h t k :
  resolve_tag (self h) t = Some k ->
  exists pc, getitem t h = (Ok pc, snd (getitem t h)).
Proof.
  intros Hr.
  destruct (getitem_cases h t) as [[E _]|[(k' & pc & _ & _ & ->)|(k' & _ & _ & ->)]];
    [congruence|eauto..].
Qed.

Lemma resolve_tag_declared h l s :
  _tags (self h) = Some l -> TagStr s ∈ l -> _main_tag (self h) ≠ TagStr s ->
  resolve_tag (self h) (TagStr s) = Some (TagStr s).
Proof.
  intros Hl Hin Hm. unfold resolve_tag, not_in_tags. cbn. rewrite Hl. cbn.
  rewrite bool_decide_eq_false_2 by congruence.
  rewrite (bool_decide_eq_true_2 _ Hin). cbn. now rewrite andb_false_r.
Qed.

Lemma resolve_tag_main h :
  (forall i, _main_tag (self h) ≠ TagInt i) ->
  resolve_tag (self h) (_main_tag (self h)) = Some TagNone.
Proof.
  intros Hm. unfold resolve_tag.
  destruct (_main_tag (self h)) as [| |i] eqn:E; cbn.
  - now rewrite bool_decide_eq_true_2.
  - now rewrite bool_decide_eq_true_2.
  - now destruct (Hm i).
Qed.

(** C3 (as amended).  When the tuple was constructed with a non-empty
    sequence of declared side tags, looking up a tag whose string form (an
    int tag is first replaced by [str(tag)]) is neither the main tag nor one
    of the declared tags raises [ValueError], and nothing is created,
    cached or registered. *)
Theorem getitem_undeclared_raises h t :
  truthy_tags (_tags (self h)) = true ->
  coerce_int_tag t ≠ _main_tag (self h) ->
  coerce_int_tag t ∉ default [] (_tags (self h)) ->
  getitem t h = (Raise ValueError, h).
Proof.
  intros Htr Hm Hin. apply getitem_raise.
  unfold resolve_tag, not_in_tags.
  rewrite bool_decide_eq_false_2 by done.
  rewrite Htr. now rewrite bool_decide_eq_false_2 by done.
Qed.

(** C9.  When the tuple was constructed with no declared side tags (an
    empty sequence or [None]), looking up any tag succeeds.  The result is
    cached under the tag's key ([None] for the main tag); on a first lookup
    it is a new PCollection, and unless the key is [None] the tag has been
    added to the transform's [side_output_tags]. *)
Theorem getitem_no_declared_tags h t :
  truthy_tags (_tags (self h)) = false ->
  exists pc h',
    getitem t h = (Ok pc, h')
    /\ _pcolls (self h') !! cache_key (self h) t = Some pc
    /\ (_pcolls (self h) !! cache_key (self h) t = None ->
        obj_id pc = next_id h
        /\ next_id h' = S (next_id h)
        /\ pvalues (the_pipeline h') = pvalues (the_pipeline h) ++ [obj_id pc]
        /\ (cache_key (self h) t ≠ TagNone ->
            side_output_tags (the_transform h')
            = {[ cache_key (self h) t ]} ∪ side_output_tags (the_transform h))
        /\ (cache_key (self h) t = TagNone ->
            the_transform h' = the_transform h)).
Proof.
  intros Htr.
  assert (Hr : resolve_tag (self h) t = Some (cache_key (self h) t)).
  { unfold resolve_tag, cache_key. rewrite Htr. cbn.
    now case_bool_decide. }
  destruct (_pcolls (self h) !! cache_key (self h) t) as [pc|] eqn:Hc.
  - exists pc, h. rewrite (getitem_hit _ _ _ _ Hr Hc). done.
  - eexists _, _. rewrite (getitem_miss _ _ _ Hr Hc).
    split; [done|]. split; [cbn; apply lookup_insert_eq|].
    intros _. cbn. repeat split.
    + intros Hk. now rewrite bool_decide_eq_false_2.
    + intros Hk. now rewrite bool_decide_eq_true_2.
Qed.

(** C6 (as amended).  An [int] tag [i] and the string [str(i)] are the same
    lookup: from any state both calls behave identically, and once
    [tuple[i]] has returned a PCollection, [tuple[str(i)]] and [tuple[i]]
    return that very object without changing anything. *)
Theorem getitem_int_tag_is_str_tag h i :
  is_int i = true ->
  getitem (TagInt i) h = getitem (TagStr (str_int i)) h
  /\ (forall pc h', getitem (TagInt i) h = (Ok pc, h') ->
        getitem (TagStr (str_int i)) h' = (Ok pc, h')
        /\ getitem (TagInt i) h' = (Ok pc, h')).
Proof.
  intros Hi.
  assert (Heq : forall h0 : @Heap Runner,
             getitem (TagInt i) h0 = getitem (TagStr (str_int i)) h0).
  { intros h0. unfold getitem. cbn. now rewrite Hi. }
  split; [apply Heq|].
  intros pc h' Hg. rewrite <- Heq.
  destruct (getitem_cached _ _ _ _ Hg) as (k & Hr & Hc).
  assert (E : getitem (TagInt i) h' = (Ok pc, h')).
  { apply (getitem_hit _ _ k); [|done].
    replace h' with (snd (getitem (TagInt i) h)) by now rewrite Hg.
    now rewrite resolve_tag_getitem. }
  now split.
Qed.

Lemma resolve_tag_key (d : DoOutputsTuple) t k :
  resolve_tag d t = Some k -> k = cache_key d t.
Proof.
  unfold resolve_tag, cache_key. case_bool_decide; [congruence|].
  destruct (truthy_tags (_tags d) && not_in_tags (coerce_int_tag t) (_tags d));
    congruence.
Qed.

(** C5 (as amended).  In every state [h] a tuple reaches from its
    construction by lookups: exactly one PCollection has been created per cached tag; a
    lookup that succeeds either finds its tag cached and returns the cached
    object, changing nothing, or creates one new object and caches it; a
    lookup that returned a PCollection keeps returning that same object,
    whatever is looked up in between, and creates nothing more; and when
    [a] and [b] are two different declared textual side tags, both different
    from the main tag (itself [None] or textual), the lookups of [a], [b]
    and the main tag return three objects of pairwise different identity. *)
Theorem one_pcollection_per_tag n0 p tr tags m ts :
  let h : Heap := lookups ts (DoOutputsTuple_init n0 p tr tags m) in
  next_id h = (n0 + size (_pcolls (self h)))%nat
  /\ (forall t pc h',
        getitem t h = (Ok pc, h') ->
        match _pcolls (self h) !! cache_key (self h) t with
        | Some cached => pc = cached /\ h' = h
        | None =>
            obj_id pc = next_id h
            /\ next_id h' = S (next_id h)
            /\ _pcolls (self h')
               = <[ cache_key (self h) t := pc ]> (_pcolls (self h))
        end)
  /\ (forall t pc h' ts',
        getitem t h = (Ok pc, h') ->
        getitem t (lookups ts' h') = (Ok pc, lookups ts' h'))
  /\ (forall a b l,
        tags = Some l -> TagStr a ∈ l -> TagStr b ∈ l -> a ≠ b ->
        m ≠ TagStr a -> m ≠ TagStr b -> (forall i, m ≠ TagInt i) ->
        exists pa pb pm h1 h2 h3,
          getitem (TagStr a) h = (Ok pa, h1)
          /\ getitem (TagStr b) h1 = (Ok pb, h2)
          /\ getitem m h2 = (Ok pm, h3)
          /\ obj_id pa ≠ obj_id pb
          /\ obj_id pa ≠ obj_id pm
          /\ obj_id pb ≠ obj_id pm).
Proof.
  intros h.
  assert (Hinv : tuple_inv n0 h)
    by apply tuple_inv_lookups, tuple_inv_init.
  assert (Hst : _tags (self h) = tags /\ _main_tag (self h) = m)
    by apply (lookups_static ts (DoOutputsTuple_init n0 p tr tags m)).
  destruct Hst as [Htags Hmain].
  split; [apply Hinv|]. split; [|split].
  - intros t pc h' Hg.
    destruct (getitem_cases h t)
      as [[_ E]|[(k & pc' & Hr & Hc & E)|(k & Hr & Hc & E)]];
      rewrite E in Hg; simplify_eq;
      rewrite <- (resolve_tag_key _ _ _ Hr), Hc; done.
  - intros t pc h' ts' Hg.
    destruct (getitem_cached _ _ _ _ Hg) as (k & Hr & Hc).
    apply (getitem_hit _ _ k).
    + rewrite resolve_tag_lookups.
      replace h' with (snd (getitem t h)) by now rewrite Hg.
      now rewrite resolve_tag_getitem.
    + now apply lookups_keeps.
  - intros a b l -> Ha Hb Hab Hma Hmb Hmi.
    set (h1 := snd (getitem (TagStr a) h)).
    set (h2 := snd (getitem (TagStr b) h1)).
    set (h3 := snd (getitem m h2)).
    assert (Hra : resolve_tag (self h) (TagStr a) = Some (TagStr a)).
    { apply (resolve_tag_declared _ l); [done..|congruence]. }
    assert (Hrb : resolve_tag (self h1) (TagStr b) = Some (TagStr b)).
    { unfold h1. rewrite resolve_tag_getitem.
      apply (resolve_tag_declared _ l); [done..|congruence]. }
    assert (Hrm : resolve_tag (self h2) m = Some TagNone).
    { unfold h2, h1. rewrite !resolve_tag_getitem. rewrite <- Hmain at 1.
      apply resolve_tag_main. now rewrite Hmain. }
    destruct (getitem_succeeds _ _ _ Hra) as [pa Ea].
    destruct (getitem_succeeds _ _ _ Hrb) as [pb Eb].
    destruct (getitem_succeeds _ _ _ Hrm) as [pm Em].
    fold h1 in Ea. fold h2 in Eb. fold h3 in Em.
    exists pa, pb, pm, h1, h2, h3. split; [done|]. split; [done|]. split; [done|].
    destruct (getitem_cached _ _ _ _ Ea) as (ka & Hka & Hca).
    destruct (getitem_cached _ _ _ _ Eb) as (kb & Hkb & Hcb).
    destruct (getitem_cached _ _ _ _ Em) as (km & Hkm & Hcm).
    simplify_eq.
    assert (Hinv3 : tuple_inv n0 h3)
      by (unfold h3, h2, h1; auto using tuple_inv_getitem).
    destruct Hinv3 as (_ & _ & Hinj).
    assert (Hca3 : _pcolls (self h3) !! TagStr a = Some pa).
    { unfold h3, h2. now do 2 apply getitem_keeps. }
    assert (Hcb3 : _pcolls (self h3) !! TagStr b = Some pb).
    { unfold h3. now apply getitem_keeps. }
    repeat split; intros Hid.
    + specialize (Hinj _ _ _ _ Hca3 Hcb3 Hid). congruence.
    + specialize (Hinj _ _ _ _ Hca3 Hcm Hid). congruence.
    + specialize (Hinj _ _ _ _ Hcb3 Hcm Hid). congruence.
Qed.

End GraphFacts.

(** C3, as first stated, fails when no side tags were declared: in a tuple
    constructed with an empty tag list and main tag ['main'], the tag ['c']
    is neither the main tag nor a declared tag, and the lookup returns a new
    PCollection. *)
Lemma getitem_undeclared_succeeds_without_tags :
  let h : @Heap unit :=
    DoOutputsTuple_init 0 {| runner := None; pvalues := [] |}
      {| side_output_tags := ∅ |} (Some []) (TagStr "main") in
  TagStr "c" ≠ _main_tag (self h)
  /\ (TagStr "c" ∉ default [] (_tags (self h)))
  /\ (fst (getitem (TagStr "c") h)
      = Ok {| obj_id := 0; tag_of := TagStr "c"; element_type := None;
              producer := None |})
  /\ fst (getitem (TagStr "c") h) ≠ Raise ValueError.
Proof.
  cbn zeta. split; [done|]. split; [cbn; apply not_elem_of_nil|].
  split; [reflexivity|]. vm_compute. discriminate.
Qed.

(** C5, as first stated, fails for declared side tags that are ints, and
    for a main tag that is one of the side tags.  In a tuple constructed
    with the side tags [0] and [1] the lookup of [0] looks for ['0'], which
    was not declared, and raises; in a tuple with the side tags ['a'] and
    ['b'] and main tag ['a'], the lookups of ['a'] and of the main tag
    return one and the same PCollection. *)
Lemma declared_int_tags_are_not_found :
  let ints : @Heap unit :=
    DoOutputsTuple_init 0 {| runner := None; pvalues := [] |}
      {| side_output_tags := ∅ |} (Some [TagInt 0; TagInt 1]) (TagStr "main") in
  let main_a : @Heap unit :=
    DoOutputsTuple_init 0 {| runner := None; pvalues := [] |}
      {| side_output_tags := ∅ |} (Some [TagStr "a"; TagStr "b"]) (TagStr "a") in
  TagInt 0 ∈ default [] (_tags (self ints))
  /\ getitem (TagInt 0) ints = (Raise ValueError, ints)
  /\ TagStr "a" ∈ default [] (_tags (self main_a))
  /\ (exists pc h1,
        getitem (TagStr "a") main_a = (Ok pc, h1)
        /\ getitem (_main_tag (self main_a)) h1 = (Ok pc, h1))
  /\ ~ (forall (tags : list tag) (m a b : tag) h,
          h = DoOutputsTuple_init 0 {| runner := None; pvalues := [] |}
                {| side_output_tags := ∅ |} (Some tags) m ->
          a ∈ tags -> b ∈ tags ->
          exists pa pb pm h1 h2 h3,
            getitem (Runner := unit) a h = (Ok pa, h1)
            /\ getitem b h1 = (Ok pb, h2)
            /\ getitem m h2 = (Ok pm, h3)
            /\ obj_id pa ≠ obj_id pb
            /\ obj_id pa ≠ obj_id pm
            /\ obj_id pb ≠ obj_id pm).
Proof.
  cbn zeta. split; [apply elem_of_cons; now left|]. split; [reflexivity|].
  split; [apply elem_of_cons; now left|]. split.
  - exists {| obj_id := 0; tag_of := TagNone; element_type := None;
              producer := None |}.
    eexists. split; vm_compute; reflexivity.
  - intros Hall.
    destruct (Hall [TagInt 0; TagInt 1] (TagStr "main") (TagInt 0) (TagInt 1)
                _ eq_refl)
      as (pa & pb & pm & h1 & h2 & h3 & E & _).
    + apply elem_of_cons. now left.
    + apply elem_of_cons. right. apply elem_of_cons. now left.
    + vm_compute in E. discriminate.
Qed.

(** C6, as first stated, fails for an integer that is no [int]: [2 ** 63]
    is a [long], which is looked up as it is.  In a tuple without declared
    side tags the lookups of [2 ** 63] and of ['9223372036854775808'] create
    two PCollections; in a tuple that declares ['9223372036854775808'] the
    lookup of the string succeeds and that of the integer raises. *)
Lemma long_tag_is_not_coerced :
  let i := 2 ^ 63 in
  let declared : @Heap unit :=
    DoOutputsTuple_init 0 {| runner := None; pvalues := [] |}
      {| side_output_tags := ∅ |} (Some [TagStr (str_int i)]) (TagStr "main") in
  is_int i = false
  /\ str_int i = "9223372036854775808"
  /\ (exists p1 p2 h1 h2,
        getitem (TagInt i) tuple_open = (Ok p1, h1)
        /\ getitem (TagStr (str_int i)) h1 = (Ok p2, h2)
        /\ obj_id p1 ≠ obj_id p2
        /\ tag_of p1 = TagInt i
        /\ tag_of p2 = TagStr (str_int i))
  /\ getitem (TagInt i) declared = (Raise ValueError, declared)
  /\ fst (getitem (TagStr (str_int i)) declared)
     = Ok {| obj_id := 0; tag_of := TagStr (str_int i); element_type := None;
             producer := None |}
  /\ getitem (TagInt i) declared ≠ getitem (TagStr (str_int i)) declared.
Proof.
  cbn zeta. split; [reflexivity|]. split; [reflexivity|]. split.
  - exists {| obj_id := 0; tag_of := TagInt (2 ^ 63); element_type := None;
              producer := None |},
           {| obj_id := 1; tag_of := TagStr "9223372036854775808";
              element_type := None; producer := None |}.
    eexists _, _. split; [vm_compute; reflexivity|].
    split; [vm_compute; reflexivity|]. split; [discriminate|].
    split; reflexivity.
  - split; [vm_compute; reflexivity|]. split; [vm_compute; reflexivity|].
    vm_compute. discriminate.
Qed.

(** ** Materialization without a runner *)

Section MaterializeFacts.
Context {Runner RS V T W : Type} `{!RunnerInterface Runner RS V T W}.

(** C8.  With no runner passed and none bound to the pipeline,
    [_get_values] raises [RunnerError]; the state is left as it was: the
    runner was not called and its state did not move. *)
Theorem get_values_without_runner (node : PCollection) (s : ExecState Runner RS) :
  runner (exec_pipeline s) = None ->
  _get_internal node None s = (Raise RunnerError, s)
  /\ _get_values node s = (Raise RunnerError, s)
  /\ run_log (snd (_get_values node s)) = run_log s.
Proof.
  intros Hr. unfold _get_values.
  assert (E : _get_internal node None s = (Raise RunnerError, s)).
  { unfold _get_internal, mbind, M_bind, bind, get. cbn. now rewrite Hr. }
  rewrite E. done.
Qed.

End MaterializeFacts.

(** ** Side inputs *)







Section DerivedMarkerFacts.
Context {E K V : Type} `{Countable K}.
Variable entry : E -> K * V.

(** C7.  Whatever [Pipeline.apply] does, [AsList(pcoll)] is [AsSingleton]
    of the value that applying [combiners.ToList(label)] to [pcoll]
    returns, with no default, and [AsDict(pcoll)] the same with
    [combiners.ToDict(label)]; when the application raises, so do they.  In
    the graph, the marker wraps the one new PCollection, whose producer is
    the one node that was registered, for the [ToList] (the [ToDict]) and
    [pcoll]; the output of such a node has one element whatever the
    elements of [pcoll] are: the list of them all, or the dictionary of their
    entries, a later entry replacing an earlier one of the same key. *)
Theorem AsList_AsDict_are_singletons (pcoll : PCollection)
    (label : option string) :
  (forall (G : Type) (Pipeline_apply : combiner -> PCollection -> M G PCollection)
          (g : G),
      AsList Pipeline_apply pcoll label g
      = match Pipeline_apply (ToList (default "AsList" label)) pcoll g with
        | (Ok out, g') =>
            (Ok {| pvalue := out; default_value := NO_DEFAULT |}, g')
        | (Raise e, g') => (Raise e, g')
        end
      /\ AsDict Pipeline_apply pcoll label g
        = match Pipeline_apply (ToDict (default "AsDict" label)) pcoll g with
          | (Ok out, g') =>
              (Ok {| pvalue := out; default_value := NO_DEFAULT |}, g')
          | (Raise e, g') => (Raise e, g')
          end)
  /\ (forall g : Graph,
        (exists marker g',
            AsList Graph_apply pcoll label g = (Ok marker, g')
            /\ wraps_application g g' (ToList (default "AsList" label))
                 pcoll marker)
        /\ (exists marker g',
              AsDict Graph_apply pcoll label g = (Ok marker, g')
              /\ wraps_application g g' (ToDict (default "AsDict" label))
                   pcoll marker))
  /\ (forall (l : string) (xs : list E),
        combiner_output entry (ToList l) xs = [TheList xs]
        /\ (exists d, combiner_output entry (ToDict l) xs = [TheDict d]
              /\ forall pre x post,
                   xs = pre ++ x :: post ->
                   Forall (fun y => fst (entry y) ≠ fst (entry x)) post ->
                   d !! fst (entry x) = Some (snd (entry x)))
        /\ forall c, length (combiner_output entry c xs) = 1%nat).
Proof.
  split; [|split].
  - intros G Pipeline_apply g.
    unfold AsList, AsDict, PValue_or, mbind, M_bind, bind.
    split; destruct (Pipeline_apply _ pcoll g) as [[out|e] g']; reflexivity.
  - intros g. split; eexists _, _; (split; [reflexivity|]);
      repeat split.
  - intros l xs. split; [reflexivity|]. split.
    + eexists. split; [reflexivity|].
      intros pre x post -> Hpost. rewrite fold_left_app. cbn.
      generalize (fold_left
                    (fun (d : gmap K V) y => <[ fst (entry y) := snd (entry y) ]> d)
                    pre ∅).
      intros d0.
      assert (H0 : <[ fst (entry x) := snd (entry x) ]> d0 !! fst (entry x)
                   = Some (snd (entry x))) by apply lookup_insert_eq.
      revert H0. generalize (<[ fst (entry x) := snd (entry x) ]> d0).
      induction Hpost as [|y post Hy _ IH]; intros d1 H1; cbn; [done|].
      apply IH. now rewrite lookup_insert_ne.
    + now intros [].
Qed.

End DerivedMarkerFacts.

(** ** The top-N combiner *)

Section TopFacts.
Context {A : Type}.
Variable n : nat.
Variable lessthan : A -> A -> bool.
Implicit Types (x y : A) (l a b s : list A).

Local Abbreviation ins := (insert_desc lessthan).
Local Abbreviation srt := (sort_desc lessthan).
Local Abbreviation fold_ins := (fold_left (fun acc x => insert_desc lessthan x acc)).
Local Abbreviation topn := (top n lessthan).

(** Later elements are never greater than earlier ones. *)
Local Abbreviation ge_rel := (fun y x => lessthan y x = false).

Lemma take_take_cons x l m : take m (x :: take m l) = take m (x :: l).
Proof.
  destruct m as [|m]; [done|]. cbn. f_equal.
  rewrite take_take. f_equal. lia.
Qed.

(** Truncation commutes with insertion. *)
Lemma take_insert_desc x l m :
  take m (ins x l) = take m (ins x (take m l)).
Proof.
  revert m. induction l as [|y l IH]; intros [|m]; cbn; try done.
  destruct (lessthan y x); cbn.
  - f_equal. now rewrite take_take_cons.
  - f_equal. apply IH.
Qed.

Lemma take_fold_insert b s :
  take n (fold_ins b s) = take n (fold_ins b (take n s)).
Proof.
  revert s. induction b as [|x b IH]; intros s; cbn.
  - now rewrite take_take, Nat.min_id.
  - rewrite IH. rewrite take_insert_desc. now rewrite <- IH.
Qed.

Lemma sort_desc_app a b : srt (a ++ b) = fold_ins b (srt a).
Proof. unfold sort_desc. apply fold_left_app. Qed.

Lemma top_app a b : topn (a ++ b) = take n (fold_ins b (topn a)).
Proof. unfold top. rewrite sort_desc_app. apply take_fold_insert. Qed.

Lemma insert_desc_perm x l : ins x l ≡ₚ x :: l.
Proof.
  induction l as [|y l IH]; cbn; [done|].
  destruct (lessthan y x); [done|].
  rewrite IH. apply Permutation_swap.
Qed.

Lemma sort_desc_perm l : srt l ≡ₚ l.
Proof.
  induction l as [|x l IH] using rev_ind; [done|].
  rewrite sort_desc_app. cbn. rewrite insert_desc_perm, IH.
  now rewrite Permutation_cons_append.
Qed.

Lemma insert_desc_last x l :
  Forall (fun y => lessthan y x = false) l -> ins x l = l ++ [x].
Proof.
  induction 1 as [|y l Hy _ IH]; cbn; [done|]. now rewrite Hy, IH.
Qed.

Section Strict.
Hypothesis Hstrict : strict_ordering lessthan.

Lemma lessthan_asym x y : lessthan x y = true -> lessthan y x = false.
Proof.
  destruct Hstrict as [Hirr Htr]. intros Hxy.
  destruct (lessthan y x) eqn:Hyx; [|done].
  now rewrite <- (Hirr x), (Htr x y x).
Qed.

Lemma insert_desc_sorted x l :
  StronglySorted ge_rel l -> StronglySorted ge_rel (ins x l).
Proof.
  destruct Hstrict as [Hirr Htr].
  induction 1 as [|y l Hs IH Hy]; cbn.
  - repeat constructor.
  - destruct (lessthan y x) eqn:Hyx.
    + constructor; [now constructor|].
      constructor; [now apply lessthan_asym|].
      eapply Forall_impl; [exact Hy|]. cbn. intros z Hyz.
      destruct (lessthan x z) eqn:Hxz; [|done].
      now rewrite <- Hyz, (Htr y x z).
    + constructor; [done|].
      rewrite insert_desc_perm. now constructor.
Qed.

Lemma sort_desc_sorted l : StronglySorted ge_rel (srt l).
Proof.
  induction l as [|x l IH] using rev_ind; [constructor|].
  rewrite sort_desc_app. cbn. now apply insert_desc_sorted.
Qed.

Lemma StronglySorted_snoc_inv l x :
  StronglySorted ge_rel (l ++ [x]) ->
  StronglySorted ge_rel l /\ Forall (fun y => lessthan y x = false) l.
Proof.
  induction l as [|y l IH]; cbn; intros Hs; [split; constructor|].
  apply StronglySorted_inv in Hs as [Hs Hy].
  destruct (IH Hs) as [Hl Hx]. split.
  - constructor; [done|]. apply Forall_app in Hy. tauto.
  - constructor; [|done]. apply Forall_app in Hy as [_ Hy].
    now inversion Hy.
Qed.

(** Sorting a sorted sequence leaves it as it is, ties included. *)
Lemma sort_desc_of_sorted l : StronglySorted ge_rel l -> srt l = l.
Proof.
  induction l as [|x l IH] using rev_ind; [done|].
  intros Hs. apply StronglySorted_snoc_inv in Hs as [Hl Hx].
  rewrite sort_desc_app. cbn. rewrite (IH Hl). now apply insert_desc_last.
Qed.

Lemma StronglySorted_take m l :
  StronglySorted ge_rel l -> StronglySorted ge_rel (take m l).
Proof.
  intros Hs. revert m. induction Hs as [|y l Hs IH Hy]; intros [|m]; cbn;
    try constructor; [apply IH|].
  eapply Forall_forall. intros z Hz. eapply Forall_forall in Hy; [exact Hy|].
  eapply subseteq_take, Hz.
Qed.

Lemma top_sorted l : StronglySorted ge_rel (topn l).
Proof. apply StronglySorted_take, sort_desc_sorted. Qed.

Lemma top_top l : topn (topn l) = topn l.
Proof.
  unfold top at 1. rewrite sort_desc_of_sorted by apply top_sorted.
  unfold top. now rewrite take_take, Nat.min_id.
Qed.

(** An accumulator can stand for the elements it was built from. *)
Lemma top_app_top_l a b : topn (topn a ++ b) = topn (a ++ b).
Proof. now rewrite !top_app, top_top. Qed.

Lemma fold_add_input l :
  fold_left (add_input n lessthan) l (create_accumulator) = topn l.
Proof.
  induction l as [|x l IH] using rev_ind; [now destruct n|].
  rewrite fold_left_app. cbn. rewrite IH. unfold add_input.
  apply top_app_top_l.
Qed.

Lemma top_subseteq l : topn l ⊆ l.
Proof.
  intros x Hx. unfold top in Hx. apply subseteq_take in Hx.
  now rewrite sort_desc_perm in Hx.
Qed.

(** With no ties among the elements, the order they arrive in does not
    matter. *)
Lemma sort_desc_perm_invariant l l' :
  no_ties lessthan l -> l ≡ₚ l' -> srt l = srt l'.
Proof.
  intros Hties Hp.
  apply (StronglySorted_unique_strong ge_rel);
    [|apply sort_desc_sorted..|now rewrite !sort_desc_perm].
  intros x y Hx Hy Hxy Hyx. apply Hties; [| |done..].
  - now rewrite sort_desc_perm in Hx.
  - now rewrite sort_desc_perm, <- Hp in Hy.
Qed.

Lemma top_perm_invariant l l' :
  no_ties lessthan l -> l ≡ₚ l' -> topn l = topn l'.
Proof. intros Ht Hp. unfold top. now rewrite (sort_desc_perm_invariant l l'). Qed.

Lemma no_ties_subseteq l l' : l' ⊆ l -> no_ties lessthan l -> no_ties lessthan l'.
Proof. intros Hsub Ht x y Hx Hy. apply Ht; auto. Qed.

Lemma top_app_top a b :
  no_ties lessthan (a ++ b) -> topn (topn a ++ topn b) = topn (a ++ b).
Proof.
  intros Ht. rewrite top_app_top_l.
  rewrite (top_perm_invariant (a ++ topn b) (topn b ++ a)).
  - rewrite top_app_top_l. apply top_perm_invariant.
    + eapply no_ties_subseteq; [|exact Ht].
      intros x. rewrite !elem_of_app. tauto.
    + apply Permutation_app_comm.
  - eapply no_ties_subseteq; [|exact Ht].
    intros x. rewrite !elem_of_app. intros [Hx|Hx]; [now left|right].
    now apply top_subseteq.
  - apply Permutation_app_comm.
Qed.

Lemma run_plan_top p :
  no_ties lessthan (plan_elements p) ->
  run_plan n lessthan p = topn (plan_elements p).
Proof.
  induction p as [l|p1 IH1 p2 IH2]; cbn; intros Ht.
  - apply fold_add_input.
  - unfold merge_accumulators. fold (topn (run_plan n lessthan p1 ++ run_plan n lessthan p2)).
    rewrite IH1, IH2.
    + now apply top_app_top.
    + eapply no_ties_subseteq; [|exact Ht].
      intros x Hx. apply elem_of_app. now right.
    + eapply no_ties_subseteq; [|exact Ht].
      intros x Hx. apply elem_of_app. now left.
Qed.

Lemma combine_plan_single p l :
  no_ties lessthan l -> plan_elements p ≡ₚ l ->
  combine_plan n lessthan p = combine_single n lessthan l.
Proof.
  intros Ht Hp. unfold combine_plan, combine_single, extract_output.
  rewrite fold_add_input, run_plan_top.
  - symmetry. now apply top_perm_invariant.
  - eapply no_ties_subseteq; [|exact Ht]. intros x. now rewrite Hp.
Qed.

Lemma top_fits l : (length l <= n)%nat -> topn l ≡ₚ l.
Proof.
  intros Hl. unfold top. rewrite take_ge; [apply sort_desc_perm|].
  now rewrite (Permutation_length (sort_desc_perm l)).
Qed.

(** A collection that fits into the accumulator comes out whole, in an
    order that depends on the plan. *)
Lemma run_plan_fits p :
  (length (plan_elements p) <= n)%nat ->
  run_plan n lessthan p ≡ₚ plan_elements p.
Proof.
  induction p as [l|p1 IH1 p2 IH2]; cbn; intros Hl.
  - rewrite fold_add_input. now apply top_fits.
  - rewrite length_app in Hl. unfold merge_accumulators.
    fold (topn (run_plan n lessthan p1 ++ run_plan n lessthan p2)).
    rewrite top_fits.
    + rewrite IH1, IH2 by lia. done.
    + rewrite length_app, IH1, IH2 by lia. lia.
Qed.

End Strict.
End TopFacts.

Lemma by_count_strict : strict_ordering by_count.
Proof.
  split; unfold by_count.
  - intros x. apply Z.ltb_irrefl.
  - intros x y z Hxy Hyz. apply Z.ltb_lt in Hxy, Hyz. apply Z.ltb_lt. lia.
Qed.

Lemma word_counts_no_ties : no_ties by_count word_counts.
Proof.
  intros x y Hx Hy Hxy Hyx. unfold by_count in *.
  apply Z.ltb_ge in Hxy, Hyx.
  unfold word_counts in *.
  repeat (apply elem_of_cons in Hx as [->|Hx]);
    [| | |now apply elem_of_nil in Hx];
    (repeat (apply elem_of_cons in Hy as [->|Hy]);
     [| | |now apply elem_of_nil in Hy]);
    first [reflexivity | cbn in *; lia].
Qed.

(** C2 (as amended).  When the comparator is a strict ordering under which
    no two different elements of the collection tie, every way of sharding
    the elements and every bracketing and order of the merges extracts the
    same sequence as folding all elements, in any order, through one
    accumulator.  For the counts [{to: 3, this: 2, that: 1}], N = 3 and the
    ordering by count, that sequence is [(3, to), (2, this), (1, that)]
    whatever the plan. *)
Theorem top_n_plan_irrelevant_without_ties :
  (forall (A : Type) (n : nat) (lessthan : A -> A -> bool)
          (p : plan A) (l : list A),
      strict_ordering lessthan -> no_ties lessthan l ->
      plan_elements p ≡ₚ l ->
      combine_plan n lessthan p = combine_single n lessthan l)
  /\ (forall p : plan (Z * string),
        plan_elements p ≡ₚ word_counts ->
        combine_plan 3 by_count p
        = [(3, "to"); (2, "this"); (1, "that")]%string).
Proof.
  split.
  - intros A n lessthan p l Hs Ht Hp. now apply combine_plan_single.
  - intros p Hp.
    rewrite (combine_plan_single 3 by_count by_count_strict p word_counts
               word_counts_no_ties Hp).
    reflexivity.
Qed.

Lemma fewer_edits_strict : strict_ordering fewer_edits.
Proof.
  split; unfold fewer_edits.
  - intros x. apply Z.ltb_irrefl.
  - intros x y z Hxy Hyz. apply Z.ltb_lt in Hxy, Hyz. apply Z.ltb_lt. lia.
Qed.

(** C2, as first stated, fails for a comparator with ties.  Under the
    comparator of [TopPerMonth], which looks at the count alone, two
    sessions of one edit each tie: with N = 10, merging the shard of the
    first into the shard of the second and the other way round give the two
    sessions in different orders, and only one of them is what a single
    accumulator gives. *)
Lemma top_n_ties_follow_merge_order :
  let a := ("user2 : [7200.0, 10800.0)", 1)%string in
  let b := ("user3 : [3024.0, 6624.0)", 1)%string in
  strict_ordering fewer_edits
  /\ plan_elements (Merge (Shard [b]) (Shard [a])) ≡ₚ [a; b]
  /\ combine_single 10 fewer_edits [a; b] = [a; b]
  /\ combine_plan 10 fewer_edits (Merge (Shard [a]) (Shard [b])) = [a; b]
  /\ combine_plan 10 fewer_edits (Merge (Shard [b]) (Shard [a])) = [b; a]
  /\ combine_plan 10 fewer_edits (Merge (Shard [b]) (Shard [a]))
     ≠ combine_single 10 fewer_edits [a; b].
Proof.
  cbn zeta. split; [apply fewer_edits_strict|].
  split; [apply Permutation_swap|].
  split; [reflexivity|]. split; [reflexivity|]. split; [reflexivity|].
  vm_compute. discriminate.
Qed.

(** ** The example pipeline *)

Lemma filter_all {A} (f : A -> bool) (l : list A) :
  (forall x, f x = true) -> List.filter f l = l.
Proof.
  intros Hf. induction l as [|x l IH]; cbn; [done|]. now rewrite Hf, IH.
Qed.

Lemma sampled_all (hash : json -> Z) (x : json) :
  - 2 ^ 63 <= hash x < 2 ^ 63 -> sampled hash (NumFloat 1) x = true.
Proof.
  intros Hh. unfold sampled. apply Qle_bool_iff.
  unfold Qle, maxint_float. cbn. lia.
Qed.

Lemma ComputeTopSessions_unsampled (hash : json -> Z) sharding pcoll :
  (forall x, - 2 ^ 63 <= hash x < 2 ^ 63) ->
  ComputeTopSessions hash sharding (NumFloat 1) pcoll
  = ComputeTopSessions (fun _ => 0) sharding (NumFloat 1) pcoll.
Proof.
  intros Hh. unfold ComputeTopSessions.
  destruct (ParDo ExtractUserAndTimestampDoFn pcoll) as [users|e]; [|done].
  cbn. unfold Filter.
  rewrite !filter_all; [done|..]; intros wv;
    [exact (sampled_all (fun _ => 0) (value wv) ltac:(cbn; lia))
    |exact (sampled_all hash (value wv) (Hh _))].
Qed.

(** C1.  Whatever [hash] is (within the machine integers) and however the
    runner shards the top-10 combine, the pipeline [ComputeTopSessions(1.0)]
    on the nine edits of the test returns, as values of its output, exactly
    the four records of [EXPECTED], each once and in some order. *)
Theorem compute_top_sessions_expected (hash : json -> Z)
    (sharding : list (string * Z) -> plan (string * Z)) :
  (forall x, - 2 ^ 63 <= hash x < 2 ^ 63) ->
  is_sharding sharding ->
  exists out,
    ComputeTopSessions hash sharding (NumFloat 1) (Create EDITS) = Ok out
    /\ map value (items out) ≡ₚ EXPECTED
    /\ NoDup (map value (items out)).
Proof.
  intros Hh Hs.
  rewrite (ComputeTopSessions_unsampled hash sharding _ Hh).
  unfold ComputeTopSessions.
  destruct (ParDo ExtractUserAndTimestampDoFn (Create EDITS)) as [users|e] eqn:E1;
    vm_compute in E1; [|discriminate].
  injection E1 as <-. cbn [mbind result_bind].
  cbv zeta.
  match goal with |- context [ParDo SessionsToStringsDoFn ?c] =>
    destruct (ParDo SessionsToStringsDoFn c) as [strs|e] eqn:E2;
    vm_compute in E2; [|discriminate]
  end.
  injection E2 as <-. cbn [mbind result_bind].
  unfold TopPerMonth, CombineGlobally_Top_without_defaults.
  match goal with |- context [WindowInto ?w ?c] =>
    remember (WindowInto w c) as W eqn:EW; vm_compute in EW; subst W
  end.
  cbn [items windowing].
  match goal with |- context [distinct ?l] =>
    remember (distinct l) as ws eqn:Ews; vm_compute in Ews; subst ws
  end.
  cbn [map].
  match goal with |- context [sharding ?l] =>
    remember l as vs eqn:Evs; vm_compute in Evs
  end.
  assert (Hc : combine_plan 10 fewer_edits (sharding vs) ≡ₚ vs).
  { unfold combine_plan, extract_output.
    rewrite (run_plan_fits 10 fewer_edits fewer_edits_strict).
    - apply Hs.
    - rewrite (Permutation_length (Hs vs)). subst vs. cbn. lia. }
  revert Hc. generalize (combine_plan 10 fewer_edits (sharding vs)).
  intros tops Hc.
  unfold ParDo.
  cbn [collect items windowing value timestamp windows mbind result_bind
       FormatOutputDoFn element ctx_windows].
  eexists. split; [reflexivity|]. cbn [items].
  rewrite app_nil_r, !map_map. cbn [value].
  match goal with |- map ?f tops ≡ₚ _ /\ _ => set (fmt := f) end.
  assert (Hp : map fmt tops ≡ₚ EXPECTED).
  { rewrite Hc. subst vs fmt.
    apply (bool_decide_unpack _). vm_compute. exact I. }
  assert (Hn : NoDup (map fmt tops)).
  { rewrite Hp. apply (bool_decide_unpack _). vm_compute. exact I. }
  split; [exact Hp|exact Hn].
Qed.


(** ** The theorems at concrete inputs *)

Lemma getitem_undeclared_raises_witness :
  truthy_tags (_tags (self tuple_ab)) = true
  /\ coerce_int_tag (TagStr "c") ≠ _main_tag (self tuple_ab)
  /\ (coerce_int_tag (TagStr "c") ∉ default [] (_tags (self tuple_ab)))
  /\ getitem (TagStr "c") tuple_ab = (Raise ValueError, tuple_ab).
Proof.
  assert (H1 : truthy_tags (_tags (self tuple_ab)) = true) by reflexivity.
  assert (H2 : coerce_int_tag (TagStr "c") ≠ _main_tag (self tuple_ab))
    by discriminate.
  assert (H3 : coerce_int_tag (TagStr "c") ∉ default [] (_tags (self tuple_ab))).
  { apply (bool_decide_unpack _). vm_compute. exact I. }
  split; [exact H1|]. split; [exact H2|]. split; [exact H3|].
  exact (getitem_undeclared_raises tuple_ab (TagStr "c") H1 H2 H3).
Defined.

Lemma getitem_no_declared_tags_witness :
  truthy_tags (_tags (self tuple_open)) = false
  /\ exists pc h',
       getitem (TagStr "anything") tuple_open = (Ok pc, h')
       /\ _pcolls (self h') !! cache_key (self tuple_open) (TagStr "anything")
          = Some pc
       /\ (_pcolls (self tuple_open)
             !! cache_key (self tuple_open) (TagStr "anything") = None ->
           obj_id pc = next_id tuple_open
           /\ next_id h' = S (next_id tuple_open)
           /\ pvalues (the_pipeline h')
              = pvalues (the_pipeline tuple_open) ++ [obj_id pc]
           /\ (cache_key (self tuple_open) (TagStr "anything") ≠ TagNone ->
               side_output_tags (the_transform h')
               = {[ cache_key (self tuple_open) (TagStr "anything") ]}
                   ∪ side_output_tags (the_transform tuple_open))
           /\ (cache_key (self tuple_open) (TagStr "anything") = TagNone ->
               the_transform h' = the_transform tuple_open)).
Proof.
  assert (H1 : truthy_tags (_tags (self tuple_open)) = false) by reflexivity.
  split; [exact H1|].
  exact (getitem_no_declared_tags tuple_open (TagStr "anything") H1).
Defined.

Lemma getitem_int_tag_is_str_tag_witness :
  let pc := {| obj_id := 0; tag_of := TagStr "1"; element_type := None;
               producer := None |} in
  let h' := snd (getitem (TagInt 1) tuple_open) in
  is_int 1 = true
  /\ getitem (TagInt 1) tuple_open = (Ok pc, h')
  /\ getitem (TagStr (str_int 1)) h' = (Ok pc, h')
  /\ getitem (TagInt 1) h' = (Ok pc, h').
Proof.
  cbn zeta.
  assert (H0 : is_int 1 = true) by reflexivity.
  assert (H1 : getitem (TagInt 1) tuple_open
               = (Ok {| obj_id := 0; tag_of := TagStr "1";
                        element_type := None; producer := None |},
                  snd (getitem (TagInt 1) tuple_open))) by reflexivity.
  split; [exact H0|]. split; [exact H1|].
  exact (proj2 (getitem_int_tag_is_str_tag tuple_open 1 H0) _ _ H1).
Defined.

Lemma one_pcollection_per_tag_witness :
  exists pa pb pm h1 h2 h3,
    getitem (TagStr "a") tuple_ab = (Ok pa, h1)
    /\ getitem (TagStr "b") h1 = (Ok pb, h2)
    /\ getitem (TagStr "main") h2 = (Ok pm, h3)
    /\ obj_id pa ≠ obj_id pb
    /\ obj_id pa ≠ obj_id pm
    /\ obj_id pb ≠ obj_id pm.
Proof.
  refine (proj2 (proj2 (proj2 (one_pcollection_per_tag (Runner := unit) 0
                          {| runner := None; pvalues := [] |}
                          {| side_output_tags := ∅ |}
                          (Some [TagStr "a"; TagStr "b"]) (TagStr "main") [])))
            "a" "b" [TagStr "a"; TagStr "b"] eq_refl _ _ _ _ _ _).
  - apply (bool_decide_unpack _). vm_compute. exact I.
  - apply (bool_decide_unpack _). vm_compute. exact I.
  - discriminate.
  - discriminate.
  - discriminate.
  - discriminate.
Defined.

Lemma get_values_without_runner_witness :
  let s : ExecState unit nat :=
    {| exec_pipeline := {| runner := None; pvalues := [0%nat] |};
       runner_state := 0%nat; run_log := [] |} in
  runner (exec_pipeline s) = None
  /\ _get_internal (V := Z) some_pcoll None s = (Raise RunnerError, s)
  /\ _get_values (V := Z) some_pcoll s = (Raise RunnerError, s)
  /\ run_log (snd (_get_values (V := Z) some_pcoll s)) = run_log s.
Proof.
  cbn zeta. split; [reflexivity|].
  exact (get_values_without_runner some_pcoll
           {| exec_pipeline := {| runner := None; pvalues := [0%nat] |};
              runner_state := 0%nat; run_log := [] |} eq_refl).
Defined.



Lemma AsList_AsDict_are_singletons_witness :
  let xs := [("a", 1); ("b", 2); ("a", 3)]%string in
  xs = [("a", 1)]%string ++ ("b", 2)%string :: [("a", 3)]%string
  /\ Forall (fun y : string * Z => fst (id y) ≠ fst (id ("b", 2)%string))
        [("a", 3)]%string
  /\ exists d, combiner_output id (ToDict "AsDict") xs = [TheDict d]
               /\ d !! "b"%string = Some 2.
Proof.
  cbn zeta.
  assert (H1 : [("a", 1); ("b", 2); ("a", 3)]%string
               = [("a", 1)]%string ++ ("b", 2)%string :: [("a", 3)]%string)
    by reflexivity.
  assert (H2 : Forall (fun y : string * Z => fst (id y) ≠ fst (id ("b", 2)%string))
                 [("a", 3)]%string).
  { constructor; [discriminate|constructor]. }
  split; [exact H1|]. split; [exact H2|].
  destruct (proj1 (proj2 (proj2 (proj2
              (AsList_AsDict_are_singletons (E := string * Z) id some_pcoll None))
              "AsDict"%string [("a", 1); ("b", 2); ("a", 3)]%string)))
    as (d & Ed & Hd).
  exists d. split; [exact Ed|].
  exact (Hd [("a", 1)]%string ("b", 2)%string [("a", 3)]%string H1 H2).
Defined.

Lemma top_n_plan_irrelevant_without_ties_witness :
  let p := Merge (Shard [(2, "this"); (1, "that")]%string)
                 (Merge (Shard []) (Shard [(3, "to")]%string)) in
  strict_ordering by_count
  /\ no_ties by_count word_counts
  /\ plan_elements p ≡ₚ word_counts
  /\ combine_plan 3 by_count p = combine_single 3 by_count word_counts
  /\ combine_plan 3 by_count p = [(3, "to"); (2, "this"); (1, "that")]%string.
Proof.
  cbn zeta.
  assert (H3 : plan_elements
                 (Merge (Shard [(2, "this"); (1, "that")]%string)
                    (Merge (Shard []) (Shard [(3, "to")]%string)))
               ≡ₚ word_counts).
  { apply (bool_decide_unpack _). vm_compute. exact I. }
  split; [exact by_count_strict|]. split; [exact word_counts_no_ties|].
  split; [exact H3|]. split.
  - exact (proj1 top_n_plan_irrelevant_without_ties _ 3%nat by_count _ _
             by_count_strict word_counts_no_ties H3).
  - exact (proj2 top_n_plan_irrelevant_without_ties _ H3).
Defined.

Lemma compute_top_sessions_expected_witness :
  (forall x : json, - 2 ^ 63 <= (fun _ : json => 0) x < 2 ^ 63)
  /\ is_sharding (@two_shards (string * Z))
  /\ exists out,
       ComputeTopSessions (fun _ => 0) two_shards (NumFloat 1) (Create EDITS)
       = Ok out
       /\ map value (items out) ≡ₚ EXPECTED
       /\ NoDup (map value (items out)).
Proof.
  assert (H1 : forall x : json, - 2 ^ 63 <= (fun _ : json => 0) x < 2 ^ 63)
    by (intros x; cbn; lia).
  assert (H2 : is_sharding (@two_shards (string * Z))).
  { intros l. cbn. now rewrite take_drop. }
  split; [exact H1|]. split; [exact H2|].
  exact (compute_top_sessions_expected (fun _ => 0) two_shards H1 H2).
Defined.

(** ** More of pvalue.py *)

Section MoreGraphFacts.
Context {Runner : Type}.
Implicit Types (h : @Heap Runner) (t k : tag) (pc : PCollection).

(** X1.  [PValue.__init__] raises [ValueError], and leaves the pipeline as
    it was, exactly when the [pipeline] or the [transform] keyword is
    missing or another keyword is present; otherwise the new value has a
    fresh identity, the given tag ([None] by default) and element type, no
    producer, and is registered last with the pipeline, nothing else
    changing. *)
Theorem PValue_init_outcome (kw : kwargs) h :
  (kw_pipeline kw = false \/ kw_transform kw = false \/ kw_other kw ≠ [] ->
   PValue_init kw h = (Raise ValueError, h))
  /\ (kw_pipeline kw = true -> kw_transform kw = true -> kw_other kw = [] ->
      exists pv h',
        PValue_init kw h = (Ok pv, h')
        /\ obj_id pv = next_id h
        /\ tag_of pv = default TagNone (kw_tag kw)
        /\ element_type pv = kw_element_type kw
        /\ producer pv = None
        /\ next_id h' = S (next_id h)
        /\ pvalues (the_pipeline h') = pvalues (the_pipeline h) ++ [obj_id pv]
        /\ runner (the_pipeline h') = runner (the_pipeline h)
        /\ the_transform h' = the_transform h
        /\ self h' = self h).
Proof.
  unfold PValue_init. split.
  - intros [Hp|[Ht|Ho]].
    + now rewrite Hp.
    + rewrite Ht. now destruct (kw_pipeline kw).
    + destruct (kw_pipeline kw), (kw_transform kw); try done. cbn.
      now rewrite bool_decide_eq_false_2.
  - intros -> -> Ho. cbn. rewrite bool_decide_eq_true_2 by done. cbn.
    eexists _, _. split; [reflexivity|]. cbn. repeat split.
Qed.

Lemma extends_refl h : extends h h.
Proof. repeat split; done. Qed.

Lemma extends_trans h1 h2 h3 : extends h1 h2 -> extends h2 h3 -> extends h1 h3.
Proof.
  intros (A1 & A2 & A3 & A4 & A5 & A6 & A7 & A8)
         (B1 & B2 & B3 & B4 & B5 & B6 & B7 & B8).
  repeat split; try congruence; try lia; by etrans.
Qed.

Lemma getitem_extends h t : extends h (snd (getitem t h)).
Proof.
  destruct (getitem_cases h t)
    as [[_ ->]|[(k & pc & _ & _ & ->)|(k & _ & Hc & ->)]];
    [apply extends_refl..|].
  cbn. repeat split; cbn; try done; try lia.
  - now apply prefix_app_r.
  - case_bool_decide; [done|]. cbn. set_solver.
  - now apply insert_subseteq.
Qed.

Lemma lookups_extends ts h : extends h (lookups ts h).
Proof.
  revert h. induction ts as [|t ts IH]; intros h; [apply extends_refl|].
  rewrite lookups_cons.
  eapply extends_trans; [apply getitem_extends|apply IH].
Qed.

(** X2.  Lookups only ever add: after any run of lookups, failed ones
    included, the tuple's tags, main tag and producer and the pipeline's
    runner are what they were, every PCollection cached before is still
    cached under its key, every value registered before is still registered
    in its place, every side-output tag of the transform is still there; and
    at most one object was created per lookup. *)
Theorem lookups_only_add ts h :
  extends h (lookups ts h)
  /\ (next_id (lookups ts h) <= next_id h + length ts)%nat
  /\ (length (pvalues (the_pipeline (lookups ts h)))
      <= length (pvalues (the_pipeline h)) + length ts)%nat.
Proof.
  split; [apply lookups_extends|].
  revert h. induction ts as [|t ts IH]; intros h; [cbn; lia|].
  rewrite lookups_cons.
  destruct (IH (snd (getitem t h))) as [I1 I2].
  assert (Hstep : (next_id (snd (getitem t h)) <= S (next_id h))%nat
                  /\ (length (pvalues (the_pipeline (snd (getitem t h))))
                      <= S (length (pvalues (the_pipeline h))))%nat).
  { destruct (getitem_cases h t)
      as [[_ ->]|[(k & pc & _ & _ & ->)|(k & _ & Hc & ->)]]; cbn;
      rewrite ?length_app; cbn; lia. }
  cbn [length]. lia.
Qed.

(** A lookup that succeeded gives the same answer, and changes nothing, in
    every later state. *)
Lemma getitem_stable h t pc h1 h2 :
  getitem t h = (Ok pc, h1) -> extends h1 h2 -> getitem t h2 = (Ok pc, h2).
Proof.
  intros Hg Hext.
  destruct (getitem_cached _ _ _ _ Hg) as (k & Hr & Hc).
  assert (Hh : extends h h2).
  { eapply extends_trans; [|exact Hext].
    replace h1 with (snd (getitem t h)) by now rewrite Hg.
    apply getitem_extends. }
  destruct Hh as (E1 & E2 & _).
  destruct Hext as (_ & _ & _ & _ & _ & _ & _ & Hsub).
  apply (getitem_hit _ _ k).
  - unfold resolve_tag in *. now rewrite E1, E2.
  - eapply lookup_weaken; [exact Hc|exact Hsub].
Qed.

Lemma getitems_cons_inv t ts h pcs h' :
  getitems (t :: ts) h = (Ok pcs, h') ->
  exists pc pcs' h1,
    pcs = pc :: pcs' /\ getitem t h = (Ok pc, h1)
    /\ getitems ts h1 = (Ok pcs', h').
Proof.
  cbn. unfold mbind, M_bind, bind, ret.
  destruct (getitem t h) as [[pc|e] h1]; [|discriminate].
  destruct (getitems ts h1) as [[pcs'|e] h2] eqn:E; [|discriminate].
  intros [= <- <-]. exists pc, pcs', h1. done.
Qed.

Lemma getitems_cons t ts h pc h1 pcs h' :
  getitem t h = (Ok pc, h1) -> getitems ts h1 = (Ok pcs, h') ->
  getitems (t :: ts) h = (Ok (pc :: pcs), h').
Proof.
  intros E1 E2. cbn. unfold mbind, M_bind, bind, ret. now rewrite E1, E2.
Qed.

Lemma getitems_extends ts h pcs h' :
  getitems ts h = (Ok pcs, h') -> extends h h' /\ length pcs = length ts.
Proof.
  revert h pcs h'. induction ts as [|t ts IH]; intros h pcs h' Hg.
  - cbn in Hg. injection Hg as <- <-. split; [apply extends_refl|done].
  - apply getitems_cons_inv in Hg as (pc & pcs' & h1 & -> & E1 & E2).
    destruct (IH _ _ _ E2) as [Hext Hlen]. split; [|cbn; congruence].
    eapply extends_trans; [|exact Hext].
    replace h1 with (snd (getitem t h)) by now rewrite E1.
    apply getitem_extends.
Qed.

Lemma getitems_stable ts h pcs h1 h2 :
  getitems ts h = (Ok pcs, h1) -> extends h1 h2 ->
  getitems ts h2 = (Ok pcs, h2).
Proof.
  revert h pcs h1. induction ts as [|t ts IH]; intros h pcs h1 Hg Hext.
  - cbn in Hg. now injection Hg as <- <-.
  - apply getitems_cons_inv in Hg as (pc & pcs' & ha & -> & E1 & E2).
    destruct (getitems_extends _ _ _ _ E2) as [Hext' _].
    apply (getitems_cons _ _ _ _ h2).
    + eapply getitem_stable; [exact E1|]. by eapply extends_trans.
    + by eapply IH.
Qed.

Lemma DoOutputsTuple_iter_inv h pcs h' :
  DoOutputsTuple_iter h = (Ok pcs, h') ->
  exists tags main rest h1,
    _tags (self h) = Some tags
    /\ pcs = main ++ rest
    /\ (if bool_decide (_main_tag (self h) ≠ TagNone)
        then exists pc, main = [pc]
                        /\ getitem (_main_tag (self h)) h = (Ok pc, h1)
        else main = [] /\ h1 = h)
    /\ getitems tags h1 = (Ok rest, h').
Proof.
  unfold DoOutputsTuple_iter, mbind, M_bind, bind, get. cbn.
  case_bool_decide as Hm.
  - destruct (getitem (_main_tag (self h)) h) as [[pc|e] h1] eqn:E1;
      [|discriminate]. cbn.
    assert (Ht : _tags (self h1) = _tags (self h)).
    { replace h1 with (snd (getitem (_main_tag (self h)) h)) by now rewrite E1.
      apply getitem_static. }
    rewrite Ht. destruct (_tags (self h)) as [tags|]; [|discriminate].
    destruct (getitems tags h1) as [[rest|e] h2] eqn:E2; [|discriminate].
    cbn. intros [= <- <-]. exists tags, [pc], rest, h1. eauto 8.
  - cbn. destruct (_tags (self h)) as [tags|]; [|discriminate].
    destruct (getitems tags h) as [[rest|e] h2] eqn:E2; [|discriminate].
    cbn. intros [= <- <-]. exists tags, [], rest, h. eauto 8.
Qed.

(** Each of the lookups of a run that succeeded returns its PCollection
    again in every later state. *)
Lemma getitems_Forall2 ts h pcs h1 h2 :
  getitems ts h = (Ok pcs, h1) -> extends h1 h2 ->
  Forall2 (fun t pc => getitem t h2 = (Ok pc, h2)) ts pcs.
Proof.
  revert h pcs h1. induction ts as [|t ts IH]; intros h pcs h1 Hg Hext.
  - cbn in Hg. injection Hg as <- <-. constructor.
  - apply getitems_cons_inv in Hg as (pc & pcs' & ha & -> & E1 & E2).
    destruct (getitems_extends _ _ _ _ E2) as [Hext' _].
    constructor.
    + eapply getitem_stable; [exact E1|]. by eapply extends_trans.
    + by eapply IH.
Qed.

(** X4.  When iterating a tuple to the end succeeds, it yields the main
    output first (if the main tag is not [None]) and then, for each declared
    tag in the declared order, the PCollection that a lookup of that tag
    returns; and iterating again, at once or after any further lookups,
    yields the very same objects and creates nothing. *)
Theorem DoOutputsTuple_iter_repeatable h pcs h' :
  DoOutputsTuple_iter h = (Ok pcs, h') ->
  (exists tags main rest,
      _tags (self h) = Some tags
      /\ pcs = main ++ rest
      /\ (if bool_decide (_main_tag (self h) ≠ TagNone)
          then exists pc, main = [pc]
                          /\ getitem (_main_tag (self h)) h' = (Ok pc, h')
          else main = [])
      /\ Forall2 (fun t pc => getitem t h' = (Ok pc, h')) tags rest)
  /\ (forall h'', extends h' h'' -> DoOutputsTuple_iter h'' = (Ok pcs, h'')).
Proof.
  intros Hit.
  destruct (DoOutputsTuple_iter_inv _ _ _ Hit)
    as (tags & main & rest & h1 & Ht & -> & Hmain & Hrest).
  destruct (getitems_extends _ _ _ _ Hrest) as [Hext1 Hlen].
  split.
  - exists tags, main, rest. split; [done|]. split; [done|]. split.
    + case_bool_decide.
      * destruct Hmain as (pc & -> & Eg). exists pc. split; [done|].
        by eapply getitem_stable.
      * now destruct Hmain as [-> _].
    + eapply getitems_Forall2; [exact Hrest|apply extends_refl].
  - intros h2 Hext2.
    assert (Hh1 : extends h h1).
    { case_bool_decide.
      - destruct Hmain as (pc & _ & Eg).
        replace h1 with (snd (getitem (_main_tag (self h)) h)) by now rewrite Eg.
        apply getitem_extends.
      - destruct Hmain as [_ ->]. apply extends_refl. }
    assert (Hh2 : extends h h2).
    { eapply extends_trans; [exact Hh1|]. by eapply extends_trans. }
    destruct Hh2 as (E1 & E2 & _).
    unfold DoOutputsTuple_iter, mbind, M_bind, bind, get. cbn.
    rewrite E2. case_bool_decide.
    + destruct Hmain as (pc & -> & Eg).
      rewrite (getitem_stable _ _ _ _ h2 Eg) by by eapply extends_trans.
      cbn. rewrite E1, Ht.
      now rewrite (getitems_stable _ _ _ _ h2 Hrest Hext2).
    + destruct Hmain as [-> ->]. cbn. rewrite E1, Ht.
      now rewrite (getitems_stable _ _ _ _ h2 Hrest Hext2).
Qed.

End MoreGraphFacts.

Section HandedOut.
Context {Runner : Type}.
Implicit Types (h : @Heap Runner) (t k : tag) (pc : PCollection).

Lemma resolve_tag_not_int (d : DoOutputsTuple) t k i :
  resolve_tag d t = Some k -> is_int i = true -> k ≠ TagInt i.
Proof.
  unfold resolve_tag. case_bool_decide; [congruence|].
  destruct (truthy_tags _ && not_in_tags _ _); [done|].
  intros [= <-] Hi. destruct t as [| |j]; cbn; [done..|].
  destruct (is_int j) eqn:Hj; [done|]. congruence.
Qed.

Lemma well_kept_getitem ap h t :
  well_kept ap h -> well_kept ap (snd (getitem t h)).
Proof.
  intros [Hp Hk].
  destruct (getitem_cases h t)
    as [[_ ->]|[(k & pc & _ & _ & ->)|(k & Hr & Hc & ->)]]; [done..|].
  split; [done|]. cbn. intros k0 pc H.
  destruct (decide (k = k0)) as [E|Hne]; [subst k0|].
  - rewrite lookup_insert_eq in H. injection H as <-. cbn.
    repeat split; try done.
    + apply elem_of_app. right. apply list_elem_of_singleton. done.
    + intros Hn. rewrite bool_decide_eq_false_2 by done. cbn.
      apply elem_of_union. left. now apply elem_of_singleton.
    + intros i. by eapply resolve_tag_not_int.
  - rewrite lookup_insert_ne in H by done.
    destruct (Hk _ _ H) as (H1 & H2 & H3 & H4 & H5 & H6).
    repeat split; try done.
    + apply elem_of_app. now left.
    + intros Hn. case_bool_decide; [auto|]. cbn.
      apply elem_of_union. right. auto.
Qed.

Lemma well_kept_lookups ap ts h :
  well_kept ap h -> well_kept ap (lookups ts h).
Proof.
  revert h. induction ts as [|t ts IH]; intros h H0; [exact H0|].
  rewrite lookups_cons. apply IH. now apply well_kept_getitem.
Qed.

(** X3.  Every PCollection a tuple holds, in any state reached by lookups
    from a new tuple whose producer was bound, carries the key it is cached
    under as its tag ([None] for the main output), has the tuple's producer
    and no element type, is registered with the pipeline, and, unless it is
    the main output, has its tag among the transform's [side_output_tags];
    no key is an [int].  A PCollection handed out before the producer was
    bound stays in the cache as it is, without producer. *)
Theorem handed_out_pcollections n0 (p : @Pipeline Runner) tr tags m ap ts k pc :
  let new := DoOutputsTuple_init n0 p tr tags m in
  (_pcolls (self (lookups ts (set_producer ap new))) !! k = Some pc ->
   let h := lookups ts (set_producer ap new) in
   tag_of pc = k
   /\ producer pc = ap
   /\ dot_producer (self h) = ap
   /\ element_type pc = None
   /\ obj_id pc ∈ pvalues (the_pipeline h)
   /\ (k ≠ TagNone -> k ∈ side_output_tags (the_transform h))
   /\ (forall i, is_int i = true -> k ≠ TagInt i))
  /\ (forall early,
        _pcolls (self (lookups early new)) !! k = Some pc ->
        producer pc = None
        /\ _pcolls (self (lookups ts (set_producer ap (lookups early new)))) !! k
           = Some pc).
Proof.
  intros new.
  assert (Hnew : forall ap0, well_kept ap0 (set_producer ap0 new)).
  { intros ap0. split; [done|]. intros k0 pc0 H0. cbn in H0.
    now rewrite lookup_empty in H0. }
  split.
  - intros Hk h.
    destruct (well_kept_lookups ap ts _ (Hnew ap)) as [Hp Hall].
    destruct (Hall _ _ Hk) as (H1 & H2 & H3 & H4 & H5 & H6). done.
  - intros early Hk. split.
    + assert (Hw : well_kept None (lookups early new)).
      { apply well_kept_lookups. exact (Hnew None). }
      destruct Hw as [_ Hall]. now destruct (Hall _ _ Hk) as (_ & H2 & _).
    + now apply lookups_keeps.
Qed.

(** X5.  A [SideOutputValue] can only be built with a string tag: [None]
    and ints raise [TypeError].  So although [tuple[i]] accepts the int [i],
    a value meant for that output must be tagged [str(i)], which is the tag
    [tuple[i]] looks up. *)
Theorem SideOutputValue_needs_str_tag {V : Type} (v : V) t :
  match SideOutputValue_init t v with
  | Ok sov =>
      (exists s, t = TagStr s) /\ sov_tag sov = t /\ sov_value sov = v
      /\ coerce_int_tag (sov_tag sov) = sov_tag sov
  | Raise e => e = TypeError /\ (t = TagNone \/ exists i, t = TagInt i)
  end
  /\ (forall i h,
        SideOutputValue_init (TagInt i) v = Raise TypeError
        /\ exists sov,
             SideOutputValue_init (TagStr (str_int i)) v = Ok sov
             /\ (is_int i = true ->
                 getitem (sov_tag sov) h = getitem (TagInt i) h)).
Proof.
  split.
  - destruct t; cbn; eauto 6.
  - intros i h. split; [done|]. eexists. split; [reflexivity|].
    intros Hi. unfold getitem. cbn. now rewrite Hi.
Qed.

End HandedOut.

Section MoreMaterializeFacts.
Context {Runner RS V T W : Type} `{!RunnerInterface Runner RS V T W}.

(** X6.  With a runner, passed or bound to the pipeline (a passed one
    wins), [_get_internal] calls [runner.run] exactly once on the node, and
    only then [get_pvalue]: when [run] raises, that exception comes out and
    [get_pvalue] is not called; otherwise the values are those of the
    windowed elements [get_pvalue] returns, in their order. *)
Theorem get_internal_with_runner (node : PCollection)
    (runner_arg : option Runner) (r : Runner) (s : ExecState Runner RS) :
  runner_arg = Some r
  \/ (runner_arg = None /\ runner (exec_pipeline s) = Some r) ->
  let out := _get_internal node runner_arg s in
  run_log (snd out) = run_log s ++ [obj_id node]
  /\ exec_pipeline (snd out) = exec_pipeline s
  /\ match run r (exec_pipeline s) node (runner_state s) with
     | (Raise e, rs) => fst out = Raise e /\ runner_state (snd out) = rs
     | (Ok _, rs) =>
         match get_pvalue r node rs with
         | (Ok wvs, rs') =>
             fst out = Ok (map value wvs) /\ runner_state (snd out) = rs'
         | (Raise e, rs') => fst out = Raise e /\ runner_state (snd out) = rs'
         end
     end.
Proof.
  intros Hr.
  assert (E : match runner_arg with
              | Some r0 => Some r0
              | None => runner (exec_pipeline s)
              end = Some r).
  { destruct Hr as [->|[-> ->]]; done. }
  unfold _get_internal, mbind, M_bind, bind, get, log_run, modify, in_runner.
  cbn. rewrite E. cbn.
  destruct (run r (exec_pipeline s) node (runner_state s)) as [[[]|e] rs];
    cbn; [|done].
  destruct (get_pvalue r node rs) as [[wvs|e] rs']; cbn; done.
Qed.

(** X7.  [ExplicitDoOutputsTuple.__getitem__] looks the tag up in the
    deferred tuple first: a lookup that raises (an undeclared tag) leaves
    everything untouched; one that succeeds has created and cached the
    PCollection in the deferred tuple even when the pipeline has no runner,
    in which case the call ends in [AttributeError]; with a runner, the
    result is the values [get_pvalue] holds for that PCollection. *)
Theorem explicit_getitem_outcomes (t : tag) (s : @ExplicitState Runner RS) :
  match getitem t (deferred s) with
  | (Raise e, _) =>
      ExplicitDoOutputsTuple_getitem t s = (Raises (Builtin e), s)
  | (Ok pc, h') =>
      _pcolls (self h') !! cache_key (self (deferred s)) t = Some pc
      /\ match runner (the_pipeline (deferred s)) with
         | None =>
             ExplicitDoOutputsTuple_getitem t s
             = (Raises AttributeError,
                {| deferred := h';
                   explicit_runner_state := explicit_runner_state s |})
         | Some r =>
             match get_pvalue r pc (explicit_runner_state s) with
             | (Ok wvs, rs') =>
                 ExplicitDoOutputsTuple_getitem t s
                 = (Returns (map value wvs),
                    {| deferred := h'; explicit_runner_state := rs' |})
             | (Raise e, rs') =>
                 ExplicitDoOutputsTuple_getitem t s
                 = (Raises (Builtin e),
                    {| deferred := h'; explicit_runner_state := rs' |})
             end
         end
  end.
Proof.
  destruct (getitem t (deferred s)) as [[pc|e] h'] eqn:Hg.
  - split.
    + destruct (getitem_cached _ _ _ _ Hg) as (k & Hr & Hc).
      now rewrite <- (resolve_tag_key _ _ _ Hr).
    + assert (Hrun : runner (the_pipeline h') = runner (the_pipeline (deferred s))).
      { replace h' with (snd (getitem t (deferred s))) by now rewrite Hg.
        apply getitem_extends. }
      unfold ExplicitDoOutputsTuple_getitem, mbind, ME_bind, lift, in_deferred,
        with_runner_state, get, raises, mret, ME_ret.
      rewrite Hg. cbn. rewrite Hrun.
      destruct (runner (the_pipeline (deferred s))) as [r|]; [|done].
      cbn.
      destruct (get_pvalue r pc (explicit_runner_state s)) as [[wvs|e] rs'];
        done.
  - assert (Hh : h' = deferred s).
    { destruct (getitem_cases (deferred s) t)
        as [[_ E]|[(k & pc & _ & _ & E)|(k & _ & _ & E)]];
        rewrite E in Hg; congruence. }
    subst h'.
    unfold ExplicitDoOutputsTuple_getitem, mbind, ME_bind, lift, in_deferred.
    rewrite Hg. now destruct s.
Qed.

End MoreMaterializeFacts.

Section WindowingFacts.
Context {Wg E : Type}.
Variable get_windowing : applied_ptransform -> ME E Wg.

(** X8.  [PCollection.windowing] asks the producing transform at most once:
    a read that returns has stored its answer, and from then on every read
    returns that answer without calling the transform, whatever the producer
    is by then; a read on a value without producer raises [AttributeError],
    and a read that raises stores nothing, so the next one asks again. *)
Theorem windowing_is_computed_once (s : @PCollectionObject Wg E) :
  (_windowing s = None -> producer (pvalue_fields s) = None ->
   PCollection_windowing get_windowing s = (Raises AttributeError, s))
  /\ (forall e s',
        PCollection_windowing get_windowing s = (Raises e, s') ->
        _windowing s' = None /\ pvalue_fields s' = pvalue_fields s)
  /\ (forall w s',
        PCollection_windowing get_windowing s = (Returns w, s') ->
        _windowing s' = Some w
        /\ pvalue_fields s' = pvalue_fields s
        /\ forall fields e,
             PCollection_windowing get_windowing
               {| pvalue_fields := fields; _windowing := _windowing s';
                  transform_state := e |}
             = (Returns w, {| pvalue_fields := fields;
                              _windowing := _windowing s';
                              transform_state := e |})).
Proof.
  unfold PCollection_windowing, mbind, ME_bind, lift, get, raises, mret,
    ME_ret, in_transform, set_windowing.
  cbn. split; [|split].
  - intros -> ->. done.
  - intros e s'. destruct (_windowing s) as [w|] eqn:Hw; [discriminate|].
    destruct (producer (pvalue_fields s)) as [ap|].
    + destruct (get_windowing ap (transform_state s)) as [[w|e'] e1]; cbn;
        [discriminate|]. intros [= <- <-]. done.
    + intros [= <- <-]. done.
  - intros w s'. destruct (_windowing s) as [w0|] eqn:Hw.
    + intros [= <- <-]. rewrite Hw. done.
    + destruct (producer (pvalue_fields s)) as [ap|]; [|discriminate].
      destruct (get_windowing ap (transform_state s)) as [[w1|e'] e1]; cbn;
        [|discriminate]. intros [= <- <-]. done.
Qed.

End WindowingFacts.

Section ApplyFacts.
Context {ptransform G : Type}.
Variable Pipeline_apply_star :
  list (argument ptransform) -> list (string * argument ptransform)
  -> M G PCollection.

(** X9.  [PValue.apply] drops one leading label and puts the value second
    in the argument list, right after the transform, keeping the other
    arguments and the keywords: with or without label it is the same call,
    and with a transform alone it is what [pvalue | transform] calls.  With
    a label alone the value ends up first; with no argument at all it is an
    [IndexError] and [pipeline.apply] is not called. *)
Theorem PValue_apply_places_self (pv : PCollection)
    (a0 : argument ptransform) rest kwargs label (g : G) :
  is_str a0 = false ->
  PValue_apply Pipeline_apply_star pv (a0 :: rest) kwargs g
  = lift (Pipeline_apply_star (a0 :: ArgPValue pv :: rest) kwargs) g
  /\ PValue_apply Pipeline_apply_star pv (ArgStr label :: a0 :: rest) kwargs g
     = PValue_apply Pipeline_apply_star pv (a0 :: rest) kwargs g
  /\ (forall pt,
        PValue_apply Pipeline_apply_star pv [ArgTransform pt] [] g
        = lift (PValue_or
                  (fun pt pv => Pipeline_apply_star
                                  [ArgTransform pt; ArgPValue pv] [])
                  pv pt) g)
  /\ PValue_apply Pipeline_apply_star pv [ArgStr label] kwargs g
     = lift (Pipeline_apply_star [ArgPValue pv] kwargs) g
  /\ PValue_apply Pipeline_apply_star pv [] kwargs g = (Raises IndexError, g).
Proof.
  intros Ha. unfold PValue_apply, PValue_or, list_insert_at. cbn.
  rewrite Ha. cbn. rewrite !drop_0. done.
Qed.

End ApplyFacts.

(** ** More of the example pipeline and of its test *)

(** X10.  [ExtractUserAndTimestampDoFn] skips a row without
    [contributor_username], whatever else it holds or lacks; a row that has
    one but no [timestamp] raises [KeyError]; otherwise it yields one
    [TimestampedValue] of the row's user, whatever kind of value that is, at
    the row's timestamp, whatever timestamp and windows the row itself
    arrived with. *)
Theorem ExtractUserAndTimestamp_outcomes (row : table_row)
    (ts : Timestamp) (ws : list BoundedWindow) :
  let context := mkContext row ts ws in
  (row_fields row !! "contributor_username"%string = None ->
   ExtractUserAndTimestampDoFn context = Ok [])
  /\ (is_Some (row_fields row !! "contributor_username"%string) ->
      row_timestamp row = None ->
      ExtractUserAndTimestampDoFn context = Raise KeyError)
  /\ (forall user t,
        row_fields row !! "contributor_username"%string = Some user ->
        row_timestamp row = Some t ->
        ExtractUserAndTimestampDoFn context = Ok [TimestampedValue user t])
  /\ (forall out,
        ExtractUserAndTimestampDoFn context = Ok out ->
        out = []
        \/ exists user t,
             out = [TimestampedValue user t]
             /\ row_fields row !! "contributor_username"%string = Some user
             /\ row_timestamp row = Some t).
Proof.
  cbn zeta. unfold ExtractUserAndTimestampDoFn. cbn [element].
  split; [|split; [|split]].
  - now intros ->.
  - intros [u ->] ->. done.
  - now intros user t -> ->.
  - intros out.
    destruct (row_fields row !! "contributor_username"%string) as [user|];
      destruct (row_timestamp row) as [t|]; try discriminate;
      intros [= <-]; eauto 6.
Qed.

Section SamplingFacts.
Variable hash : json -> Z.

Lemma maxint_float_pos : (0 < maxint_float)%Q.
Proof. reflexivity. Qed.

Lemma sampled_float (q : Q) (x : json) :
  sampled hash (NumFloat q) x = true
  <-> (inject_Z (Z.abs (hash x)) <= maxint_float * q)%Q.
Proof. apply Qle_bool_iff. Qed.

Lemma sampled_int (k : Z) (x : json) :
  sampled hash (NumInt k) x = true <-> Z.abs (hash x) <= maxint * k.
Proof. apply Z.leb_le. Qed.

(** X11.  The sampling predicate is monotone in the threshold among float
    thresholds, among integer thresholds, and from an integer threshold to
    a float one that is not smaller: what the one keeps, the other keeps.  A
    negative threshold keeps nothing and a threshold 0 keeps exactly the
    elements of hash 0.  Of the elements whose hash is a machine integer, a
    float threshold of 1.0 or more keeps all, and so does an integer
    threshold of 2 or more, but the integer threshold 1 drops those of hash
    [-sys.maxint - 1]. *)
Theorem sampled_monotone (x : json) :
  (forall q q' : Q,
      (q <= q')%Q -> sampled hash (NumFloat q) x = true ->
      sampled hash (NumFloat q') x = true)
  /\ (forall k k' : Z,
        k <= k' -> sampled hash (NumInt k) x = true ->
        sampled hash (NumInt k') x = true)
  /\ (forall (k : Z) (q : Q),
        (inject_Z k <= q)%Q -> sampled hash (NumInt k) x = true ->
        sampled hash (NumFloat q) x = true)
  /\ (forall q : Q, (q < 0)%Q -> sampled hash (NumFloat q) x = false)
  /\ (forall k : Z, k < 0 -> sampled hash (NumInt k) x = false)
  /\ (sampled hash (NumFloat 0) x = true <-> hash x = 0)
  /\ (sampled hash (NumInt 0) x = true <-> hash x = 0)
  /\ (- maxint - 1 <= hash x <= maxint ->
      (forall q : Q, (1 <= q)%Q -> sampled hash (NumFloat q) x = true)
      /\ (forall k : Z, 2 <= k -> sampled hash (NumInt k) x = true)
      /\ (sampled hash (NumInt 1) x = true <-> hash x ≠ - maxint - 1)).
Proof.
  assert (Hfloat : forall q q' : Q,
             (q <= q')%Q -> sampled hash (NumFloat q) x = true ->
             sampled hash (NumFloat q') x = true).
  { intros q q' Hq Hs. apply sampled_float in Hs. apply sampled_float.
    eapply Qle_trans; [exact Hs|].
    apply Qmult_le_l; [apply maxint_float_pos|exact Hq]. }
  split; [exact Hfloat|]. split; [|split; [|split; [|split; [|split; [|split]]]]].
  - intros k k' Hk Hs. apply sampled_int in Hs. apply sampled_int.
    unfold maxint in *. nia.
  - intros k q Hq Hs. apply (Hfloat (inject_Z k)); [exact Hq|].
    apply sampled_int in Hs. apply sampled_float.
    unfold maxint_float. rewrite <- inject_Z_mult, <- Zle_Qle.
    unfold maxint in Hs. nia.
  - intros q Hq. destruct (sampled hash (NumFloat q) x) eqn:Hs; [|done].
    apply sampled_float in Hs. exfalso.
    assert (H0 : (0 <= inject_Z (Z.abs (hash x)))%Q).
    { unfold Qle. cbn. lia. }
    assert (Hneg : (maxint_float * q < 0)%Q).
    { rewrite <- (Qmult_0_r maxint_float).
      apply Qmult_lt_l; [apply maxint_float_pos|exact Hq]. }
    apply (Qlt_irrefl 0). eapply Qle_lt_trans; [|exact Hneg].
    eapply Qle_trans; [exact H0|exact Hs].
  - intros k Hk. destruct (sampled hash (NumInt k) x) eqn:Hs; [|done].
    apply sampled_int in Hs. unfold maxint in Hs. nia.
  - rewrite sampled_float. unfold Qle, maxint_float. cbn. lia.
  - rewrite sampled_int. unfold maxint. lia.
  - intros Hh. split; [|split].
    + intros q Hq. apply (Hfloat 1%Q); [exact Hq|].
      apply sampled_float. unfold Qle, maxint_float. cbn.
      unfold maxint in Hh. lia.
    + intros k Hk. apply sampled_int. unfold maxint in *. nia.
    + rewrite sampled_int. unfold maxint in *. lia.
Qed.

End SamplingFacts.

Lemma remove_dups_perm_iff (l e : list string) :
  NoDup e -> (remove_dups l ≡ₚ e <-> forall x, x ∈ l <-> x ∈ e).
Proof.
  intros He. split.
  - intros Hp x. now rewrite <- Hp, elem_of_remove_dups.
  - intros Hx. apply NoDup_Permutation; [apply NoDup_remove_dups|exact He|].
    intros x. now rewrite elem_of_remove_dups.
Qed.

(** X12.  [contains_in_any_order] never returns [False]: it returns [True]
    when the two sequences hold the same items the same number of times, in
    any order, and raises [ValueError] otherwise.  Applied to a [set] of the
    result, as the test of the pipeline does, it accepts exactly the results
    whose distinct values are the expected ones, however often each
    occurs, and it can accept nothing when an expected item is listed
    twice. *)
Theorem contains_in_any_order_outcomes (value expected : list string) :
  (value ≡ₚ expected -> contains_in_any_order value expected = Ok true)
  /\ (~ value ≡ₚ expected ->
      contains_in_any_order value expected = Raise ValueError)
  /\ contains_in_any_order value expected ≠ Ok false
  /\ (NoDup expected ->
      (contains_in_any_order (remove_dups value) expected = Ok true
       <-> forall x, x ∈ value <-> x ∈ expected))
  /\ (~ NoDup expected ->
      contains_in_any_order (remove_dups value) expected = Raise ValueError).
Proof.
  unfold contains_in_any_order. split; [|split; [|split; [|split]]].
  - intros Hp. now rewrite decide_True.
  - intros Hp. now rewrite decide_False.
  - destruct (decide (value ≡ₚ expected)); discriminate.
  - intros He. rewrite <- (remove_dups_perm_iff value expected He).
    destruct (decide (remove_dups value ≡ₚ expected)); split; try done.
  - intros He. rewrite decide_False; [done|]. intros Hp. apply He.
    rewrite <- Hp. apply NoDup_remove_dups.
Qed.

(** ** utils/options.py *)

Section OptionsFacts.
Context {Val klass : Type}.
Variable parse_known_args :
  klass -> option (list string) -> option (gmap string Val).
Implicit Types (self view : @PipelineOptions Val klass) (st : @OptionsStore Val)
  (name : string).

Local Abbreviation getattr := (@PipelineOptions_getattr Val klass).
Local Abbreviation setattr := (@PipelineOptions_setattr Val klass).

Lemma insert_sorted_elem x y l : y ∈ insert_sorted x l <-> y = x \/ y ∈ l.
Proof.
  induction l as [|z l IH]; cbn.
  - rewrite list_elem_of_singleton, elem_of_nil. tauto.
  - destruct (String.leb x z).
    + now rewrite elem_of_cons.
    + rewrite !elem_of_cons, IH. tauto.
Qed.

Lemma sorted_elem y l : y ∈ sorted l <-> y ∈ l.
Proof.
  induction l as [|x l IH]; cbn; [done|].
  now rewrite insert_sorted_elem, elem_of_cons, IH.
Qed.

Lemma namespace_names (ns : gmap string Val) name :
  name ∈ map fst (map_to_list ns) <-> is_Some (ns !! name).
Proof.
  change (map fst (map_to_list ns)) with (fst <$> map_to_list ns).
  rewrite list_elem_of_fmap. split.
  - intros ([n v] & -> & Hin). apply elem_of_map_to_list in Hin. eauto.
  - intros [v Hv]. exists (name, v). split; [done|].
    now apply elem_of_map_to_list.
Qed.

Lemma visible_option_list_spec self :
  _visible_options self !! ""%string = None ->
  exists names,
    _visible_option_list self = Returns names
    /\ forall name, name ∈ names <-> shows self name.
Proof.
  intros Hempty. unfold _visible_option_list.
  rewrite bool_decide_eq_false_2.
  - eexists. split; [reflexivity|]. intros name.
    rewrite sorted_elem, list_elem_of_In, filter_In, <- list_elem_of_In.
    rewrite namespace_names, negb_true_iff. done.
  - rewrite namespace_names, Hempty. now intros [? ?].
Qed.

Lemma shows_dec self name : shows self name \/ ~ shows self name.
Proof.
  unfold shows. destruct (_visible_options self !! name) as [v|].
  - destruct (starts_with_underscore name).
    + right. now intros [_ ?].
    + left. eauto.
  - right. intros [[? ?] _]. discriminate.
Qed.

Lemma getattr_spec self name st :
  _visible_options self !! ""%string = None ->
  (~ shows self name -> getattr self name st = (Raises AttributeError, st))
  /\ (forall parsed,
        _visible_options self !! name = Some parsed ->
        starts_with_underscore name = false ->
        getattr self name st
        = (Returns (default parsed (dict_at st (_all_options self) !! name)),
           st)).
Proof.
  intros Hempty.
  destruct (visible_option_list_spec self Hempty) as (names & E & Hn).
  unfold PipelineOptions_getattr. rewrite E. split.
  - intros Hs. rewrite bool_decide_eq_false_2; [done|]. now rewrite Hn.
  - intros parsed Hp Hu. rewrite bool_decide_eq_true_2.
    + now rewrite Hp.
    + apply Hn. split; [eauto|done].
Qed.

(** X13.  Reading an option: a name the parser did not produce, or one that
    starts with an underscore, is an [AttributeError], even when an
    override is stored under it; for an option the object shows, a stored
    override wins over the parsed value.  Nothing is changed by a read. *)
Theorem PipelineOptions_getattr_outcomes self name st :
  _visible_options self !! ""%string = None ->
  (~ shows self name -> getattr self name st = (Raises AttributeError, st))
  /\ (forall parsed,
        _visible_options self !! name = Some parsed ->
        starts_with_underscore name = false ->
        getattr self name st
        = (Returns (default parsed (dict_at st (_all_options self) !! name)),
           st)).
Proof. exact (getattr_spec self name st). Qed.

Lemma dict_at_setitem ref name v st ref' :
  dict_at (snd (dict_setitem ref name v st)) ref'
  = if decide (ref = ref') then <[ name := v ]> (dict_at st ref)
    else dict_at st ref'.
Proof.
  unfold dict_at at 1. cbn. destruct (decide (ref = ref')) as [->|Hne].
  - now rewrite lookup_insert_eq.
  - now rewrite lookup_insert_ne.
Qed.

Lemma setattr_spec self name Hname (v : Val) st :
  _visible_options self !! ""%string = None ->
  (shows self name ->
   exists st',
     setattr self name Hname v st = (Returns tt, st')
     /\ getattr self name st' = (Returns v, st')
     /\ (forall name', name' ≠ name ->
           fst (getattr self name' st') = fst (getattr self name' st))
     /\ (forall ref, ref ≠ _all_options self -> dict_at st' ref = dict_at st ref)
     /\ next_dict st' = next_dict st)
  /\ (~ shows self name ->
      setattr self name Hname v st = (Raises AttributeError, st)).
Proof.
  intros Hempty.
  destruct (visible_option_list_spec self Hempty) as (names & E & Hn).
  split.
  - intros Hs. exists (snd (dict_setitem (_all_options self) name v st)).
    split; [|split; [|split; [|split]]].
    + unfold PipelineOptions_setattr. rewrite E.
      rewrite bool_decide_eq_true_2 by now apply Hn. done.
    + destruct Hs as [[parsed Hp] Hu].
      rewrite (proj2 (getattr_spec self name _ Hempty)
                 parsed Hp Hu).
      rewrite dict_at_setitem, decide_True by done.
      now rewrite lookup_insert_eq.
    + intros name' Hne. unfold PipelineOptions_getattr. rewrite E.
      case_bool_decide; [|done].
      destruct (_visible_options self !! name') as [parsed|]; [|done].
      cbn [fst].
      rewrite dict_at_setitem, decide_True by done.
      now rewrite lookup_insert_ne.
    + intros ref Hne. rewrite dict_at_setitem. now rewrite decide_False.
    + done.
  - intros Hs. unfold PipelineOptions_setattr. rewrite E.
    rewrite bool_decide_eq_false_2; [done|]. now rewrite Hn.
Qed.

(** X14.  Assigning an option the object shows stores the value as an
    override in the shared dictionary: reading the option back gives that
    value, every other option reads as before, and no other dictionary is
    touched.  Assigning any other name is an [AttributeError] that changes
    nothing. *)
Theorem PipelineOptions_setattr_getattr self name Hname (v : Val) st :
  _visible_options self !! ""%string = None ->
  (shows self name ->
   exists st',
     setattr self name Hname v st = (Returns tt, st')
     /\ getattr self name st' = (Returns v, st')
     /\ (forall name', name' ≠ name ->
           fst (getattr self name' st') = fst (getattr self name' st))
     /\ (forall ref, ref ≠ _all_options self -> dict_at st' ref = dict_at st ref)
     /\ next_dict st' = next_dict st)
  /\ (~ shows self name ->
      setattr self name Hname v st = (Raises AttributeError, st)).
Proof. exact (setattr_spec self name Hname v st). Qed.

Lemma PipelineOptions_init_inv cls flags kwargs st self st' :
  PipelineOptions_init parse_known_args cls flags kwargs st = (Returns self, st') ->
  parse_known_args cls flags = Some (_visible_options self)
  /\ options_class self = cls /\ _flags self = flags
  /\ _all_options self = next_dict st
  /\ next_dict st' = S (next_dict st)
  /\ dicts st' = <[ next_dict st := kwargs ]> (dicts st).
Proof.
  unfold PipelineOptions_init, mbind, ME_bind, new_dict, raises, mret, ME_ret.
  destruct (parse_known_args cls flags) as [ns|]; [|discriminate].
  intros [= <- <-]. done.
Qed.

(** X15.  A view shares the overrides of the object it was made from: it
    has the same flags and the same dictionary while showing the options of
    its own class, so an option assigned through the view reads the same
    through the original wherever both show it, and an override given to the
    constructor for an option the original does not show is read through a
    view that shows it. *)
Theorem view_as_shares_overrides self cls st view st1 :
  PipelineOptions_view_as parse_known_args self cls st = (Returns view, st1) ->
  _visible_options self !! ""%string = None ->
  _visible_options view !! ""%string = None ->
  (_all_options self < next_dict st)%nat ->
  _all_options view = _all_options self
  /\ _flags view = _flags self
  /\ parse_known_args cls (_flags self) = Some (_visible_options view)
  /\ dict_at st1 (_all_options self) = dict_at st (_all_options self)
  /\ (forall name Hname v st2,
        shows self name ->
        setattr view name Hname v st1 = (Returns tt, st2) ->
        getattr self name st2 = (Returns v, st2))
  /\ (forall name v,
        dict_at st (_all_options self) !! name = Some v ->
        shows view name ->
        getattr view name st1 = (Returns v, st1)).
Proof.
  intros Hv Hes Hev Href.
  unfold PipelineOptions_view_as, mbind, ME_bind in Hv.
  destruct (PipelineOptions_init parse_known_args cls (_flags self) ∅ st)
    as [[view0|e] st0] eqn:Hinit; [|discriminate].
  unfold mret, ME_ret in Hv. injection Hv as <- <-.
  destruct (PipelineOptions_init_inv _ _ _ _ _ _ Hinit)
    as (Hp & Hc & Hf & Hr & Hn & Hd).
  assert (Hdict : dict_at st0 (_all_options self) = dict_at st (_all_options self)).
  { unfold dict_at. rewrite Hd, lookup_insert_ne; [done|lia]. }
  cbn. split; [done|]. split; [done|]. split; [done|]. split; [done|]. split.
  - intros name Hname v st2 Hs Hset.
    set (view := {| options_class := options_class view0;
                    _flags := _flags view0;
                    _all_options := _all_options self;
                    _visible_options := _visible_options view0 |}) in *.
    assert (Hsv : shows view name).
    { destruct (shows_dec view name) as [Hy|Hn']; [done|].
      rewrite (proj2 (setattr_spec view name Hname v st0 Hev)
                 Hn') in Hset. discriminate. }
    destruct (proj1 (setattr_spec view name Hname v st0 Hev)
                Hsv) as (st' & E1 & _).
    rewrite E1 in Hset. injection Hset as <-.
    destruct Hs as [[parsed Hpa] Hu].
    rewrite (proj2 (getattr_spec self name _ Hes)
               parsed Hpa Hu).
    unfold PipelineOptions_setattr in E1.
    destruct (visible_option_list_spec view Hev) as (names & E & Hnm).
    rewrite E, bool_decide_eq_true_2 in E1 by now apply Hnm.
    unfold dict_setitem in E1. injection E1 as <-.
    unfold dict_at at 1. cbn. rewrite lookup_insert_eq. cbn.
    now rewrite lookup_insert_eq.
  - intros name v Hk [[parsed Hpa] Hu].
    set (view := {| options_class := options_class view0;
                    _flags := _flags view0;
                    _all_options := _all_options self;
                    _visible_options := _visible_options view0 |}) in *.
    rewrite (proj2 (getattr_spec view name _ Hev)
               parsed Hpa Hu).
    cbn. now rewrite Hdict, Hk.
Qed.

End OptionsFacts.

Section ContextFacts.
Context {Val klass : Type}.
Implicit Types (options : @PipelineOptions Val klass)
  (st : @OptionsStore Val) (s : @ContextState Val).

(** X16.  A [with] block of an [OptionsContext] whose body leaves the list
    of overrides as it finds it (as a nested [with] block does) runs the
    body with the context's options appended to the overrides and leaves the
    overrides as they were before the block, whether the body returns or
    raises; the body's outcome is the block's.  A function decorated with
    the context runs the same way, but its result is dropped.  [__exit__]
    on an empty list of overrides is an [IndexError]. *)
Theorem with_context_restores {A} (opts : list (@assignment Val))
    (body : ME (@ContextState Val) A) :
  (forall s0, overrides (snd (body s0)) = overrides s0) ->
  (forall s,
      let entered := {| store := store s;
                        overrides := overrides s ++ [opts] |} in
      fst (with_context opts body s) = fst (body entered)
      /\ store (snd (with_context opts body s)) = store (snd (body entered))
      /\ overrides (snd (with_context opts body s)) = overrides s
      /\ fst (OptionsContext_call opts body s)
         = match fst (body entered) with
           | Returns _ => Returns tt
           | Raises e => Raises e
           end
      /\ snd (OptionsContext_call opts body s) = snd (with_context opts body s))
  /\ (forall s, overrides s = [] ->
        OptionsContext_exit s = (Raises IndexError, s)).
Proof.
  intros Hbody. split.
  - intros s entered.
    unfold OptionsContext_call, with_context, OptionsContext_enter, mbind,
      ME_bind, mret, ME_ret.
    fold entered. specialize (Hbody entered).
    destruct (body entered) as [[a|e] s2]; cbn in Hbody |- *;
      unfold OptionsContext_exit; rewrite Hbody;
      (destruct (overrides s ++ [opts]) as [|o os] eqn:E;
       [now destruct (overrides s)|]);
      rewrite <- E; cbn; rewrite removelast_last; done.
  - intros s Hs. unfold OptionsContext_exit. now rewrite Hs.
Qed.

Lemma setattrs_app options (l1 l2 : list (@assignment Val)) st :
  setattrs options (l1 ++ l2) st
  = (setattrs options l1;; setattrs options l2) st.
Proof.
  revert st. induction l1 as [|a l1 IH]; intros st; cbn.
  - done.
  - unfold mbind, ME_bind in *.
    destruct (PipelineOptions_setattr options (a_name a) (a_public a)
                (a_value a) st) as [[[]|e] st1]; [|done].
    apply IH.
Qed.

Lemma augment_with_concat options (os : list (list (@assignment Val))) st :
  augment_with options os st = setattrs options (concat os) st.
Proof.
  revert st. induction os as [|o os IH]; intros st; cbn; [done|].
  rewrite setattrs_app. unfold mbind, ME_bind.
  destruct (setattrs options o st) as [[[]|e] st1]; [apply IH|done].
Qed.

Lemma setattrs_shown options (l : list (@assignment Val)) st :
  _visible_options options !! ""%string = None ->
  Forall (fun a => shows options (a_name a)) l ->
  exists st',
    setattrs options l st = (Returns tt, st')
    /\ dict_at st' (_all_options options)
       = fold_left (fun d a => <[ a_name a := a_value a ]> d) l
           (dict_at st (_all_options options))
    /\ (forall ref, ref ≠ _all_options options ->
          dict_at st' ref = dict_at st ref).
Proof.
  intros Hempty Hall. revert st.
  induction Hall as [|a l Ha _ IH]; intros st; cbn.
  - exists st. done.
  - destruct (proj1 (setattr_spec options (a_name a)
                       (a_public a) (a_value a) st Hempty) Ha)
      as (st1 & E1 & _ & _ & Hother & _).
    unfold mbind, ME_bind. rewrite E1.
    destruct (IH st1) as (st' & E2 & Hd & Ho).
    exists st'. split; [done|]. split.
    + rewrite Hd. f_equal.
      destruct (visible_option_list_spec options Hempty) as (names & E & Hn).
      unfold PipelineOptions_setattr in E1.
      rewrite E, bool_decide_eq_true_2 in E1 by now apply Hn.
      unfold dict_setitem in E1. injection E1 as <-.
      unfold dict_at at 1. cbn. now rewrite lookup_insert_eq.
    + intros ref Hne. rewrite Ho by done. now apply Hother.
Qed.

Lemma setattrs_not_shown options (l : list (@assignment Val)) st :
  _visible_options options !! ""%string = None ->
  ~ Forall (fun a => shows options (a_name a)) l ->
  fst (setattrs options l st) = Raises AttributeError.
Proof.
  intros Hempty. revert st. induction l as [|a l IH]; intros st Hn; cbn.
  - destruct Hn. constructor.
  - unfold mbind, ME_bind.
    destruct (shows_dec options (a_name a)) as [Ha|Ha].
    + destruct (proj1 (setattr_spec options (a_name a)
                         (a_public a) (a_value a) st Hempty) Ha)
        as (st1 & E1 & _).
      rewrite E1. apply IH. intros Hl. apply Hn. now constructor.
    + now rewrite (proj2 (setattr_spec options (a_name a)
                            (a_public a) (a_value a) st Hempty) Ha).
Qed.

Lemma fold_insert_last (pre rest : list (@assignment Val)) a
    (d : gmap string Val) :
  Forall (fun b => a_name b ≠ a_name a) rest ->
  fold_left (fun d a => <[ a_name a := a_value a ]> d) (pre ++ a :: rest) d
    !! a_name a = Some (a_value a).
Proof.
  intros Hrest. rewrite fold_left_app. cbn.
  generalize (fold_left (fun d a => <[ a_name a := a_value a ]> d) pre d).
  intros d0.
  assert (H0 : <[ a_name a := a_value a ]> d0 !! a_name a = Some (a_value a))
    by apply lookup_insert_eq.
  revert H0. generalize (<[ a_name a := a_value a ]> d0).
  induction Hrest as [|b rest Hb _ IH]; intros d1 H1; cbn; [done|].
  apply IH. now rewrite lookup_insert_ne.
Qed.

(** X17.  For contexts none of whose options is named [_flags],
    [_all_options] or [_visible_options], [augment_options] assigns the
    options of every context on the stack, outermost context first.  When
    the object shows all their names it returns the object, the stack being
    as before, and each option then reads as the last assignment to its name
    has it: an inner context wins over an outer one.  When some name is not
    shown, it ends in [AttributeError]. *)
Theorem augment_options_last_wins options s :
  _visible_options options !! ""%string = None ->
  (Forall (fun a => shows options (a_name a)) (concat (overrides s)) ->
   exists st',
     OptionsContext_augment_options options s
     = (Returns options, {| store := st'; overrides := overrides s |})
     /\ (forall ref, ref ≠ _all_options options ->
           dict_at st' ref = dict_at (store s) ref)
     /\ (forall pre a rest,
           concat (overrides s) = pre ++ a :: rest ->
           Forall (fun b => a_name b ≠ a_name a) rest ->
           PipelineOptions_getattr options (a_name a) st'
           = (Returns (a_value a), st')))
  /\ (~ Forall (fun a => shows options (a_name a)) (concat (overrides s)) ->
      fst (OptionsContext_augment_options options s) = Raises AttributeError
      /\ overrides (snd (OptionsContext_augment_options options s))
         = overrides s).
Proof.
  intros Hempty. unfold OptionsContext_augment_options, in_store, mbind,
    ME_bind, mret, ME_ret.
  rewrite augment_with_concat. split.
  - intros Hall.
    destruct (setattrs_shown options _ (store s) Hempty Hall)
      as (st' & E & Hd & Ho).
    exists st'. rewrite E. split; [done|]. split; [exact Ho|].
    intros pre a rest Hc Hrest.
    assert (Ha : shows options (a_name a)).
    { rewrite Hc in Hall. apply Forall_app in Hall as [_ Hall].
      now inversion Hall. }
    destruct Ha as [[parsed Hp] Hu].
    rewrite (proj2 (getattr_spec options _ _ Hempty)
               parsed Hp Hu).
    rewrite Hd, Hc. now rewrite fold_insert_last.
  - intros Hn.
    pose proof (setattrs_not_shown options _ (store s) Hempty Hn) as E.
    destruct (setattrs options (concat (overrides s)) (store s)) as [[[]|e] st'];
      cbn in E |- *; [discriminate|]. split; congruence.
Qed.

End ContextFacts.

Section AnonymousRows.
Variable hash : json -> Z.
Variable sharding : list (string * Z) -> plan (string * Z).

Lemma result_bind_ret {A} (m : result (list A)) :
  (zs ← m; Ok ([] ++ zs)) = m.
Proof. now destruct m. Qed.

Lemma collect_skip {A B} (g : A -> result (list B)) (P : A -> bool) l :
  (forall x, P x = false -> g x = Ok []) ->
  collect g l = collect g (List.filter P l).
Proof.
  intros Hskip. induction l as [|x l IH]; cbn; [done|].
  destruct (P x) eqn:HP; cbn.
  - now rewrite IH.
  - rewrite (Hskip x HP). cbn. rewrite <- IH. apply result_bind_ret.
Qed.

Lemma collect_raises {A B} (g : A -> result (list B)) l x e :
  x ∈ l -> g x = Raise e -> exists e', collect g l = Raise e'.
Proof.
  intros Hin Hg. induction l as [|y l IH]; [now apply elem_of_nil in Hin|].
  cbn. destruct (g y) as [ys|e0] eqn:Hy; cbn; [|eauto].
  apply elem_of_cons in Hin as [->|Hin]; [congruence|].
  destruct (IH Hin) as [e' ->]. cbn. eauto.
Qed.

Lemma ParDo_raises {A B} (process : DoFnContext A -> result (list (emitted B)))
    (pcoll : Contents A) wv e :
  wv ∈ items pcoll ->
  process (mkContext (value wv) (timestamp wv) (windows wv)) = Raise e ->
  exists e', ParDo process pcoll = Raise e'.
Proof.
  intros Hin Hp. unfold ParDo.
  match goal with |- context [collect ?g ?l] =>
    destruct (collect_raises g l wv e) as [e' He]
  end.
  - exact Hin.
  - cbn. now rewrite Hp.
  - exists e'. now rewrite He.
Qed.

(** X18.  Rows without [contributor_username] do not take part in
    [ComputeTopSessions]: the pipeline gives the same result, or raises the
    same exception, as on the input without them.  One row that has a
    contributor but no [timestamp] makes the whole pipeline raise. *)
Theorem anonymous_rows_are_ignored (q : number) (rows : list table_row) :
  ComputeTopSessions hash sharding q (Create rows)
  = ComputeTopSessions hash sharding q
      (Create (List.filter
                 (fun row => bool_decide
                               (is_Some (row_fields row !! "contributor_username"%string)))
                 rows))
  /\ (forall row,
        row ∈ rows ->
        is_Some (row_fields row !! "contributor_username"%string) ->
        row_timestamp row = None ->
        exists e, ComputeTopSessions hash sharding q (Create rows) = Raise e).
Proof.
  split.
  - unfold ComputeTopSessions.
    assert (E : ParDo ExtractUserAndTimestampDoFn (Create rows)
                = ParDo ExtractUserAndTimestampDoFn
                    (Create (List.filter
                               (fun row => bool_decide
                                  (is_Some (row_fields row !! "contributor_username"%string)))
                               rows))).
    { unfold ParDo, Create. cbn [items windowing].
      set (mk := fun v : table_row =>
                   mkWindowedValue v MIN_TIMESTAMP [GlobalWindow]).
      rewrite (collect_skip _
                 (fun wv => bool_decide
                    (is_Some (row_fields (value wv) !! "contributor_username"%string)))).
      - f_equal. f_equal. clear. induction rows as [|r rs IH]; cbn; [done|].
        destruct (bool_decide _); cbn; now rewrite IH.
      - intros wv Hwv. apply bool_decide_eq_false in Hwv.
        unfold ExtractUserAndTimestampDoFn. cbn [element].
        destruct (row_fields (value wv) !! "contributor_username"%string); [|done].
        destruct Hwv. eauto. }
    now rewrite E.
  - intros row Hin Hu Ht. unfold ComputeTopSessions.
    destruct (ParDo_raises ExtractUserAndTimestampDoFn (Create rows)
                (mkWindowedValue row MIN_TIMESTAMP [GlobalWindow]) KeyError)
      as [e' He].
    + unfold Create. cbn [items].
      apply list_elem_of_In, in_map_iff. exists row.
      split; [done|]. now apply list_elem_of_In.
    + unfold ExtractUserAndTimestampDoFn. cbn.
      destruct Hu as [u ->]. now rewrite Ht.
    + exists e'. now rewrite He.
Qed.

End AnonymousRows.

(** ** The further theorems at concrete inputs *)

Lemma PValue_init_outcome_witness :
  let missing := {| kw_pipeline := false; kw_transform := true;
                    kw_tag := None; kw_element_type := None;
                    kw_other := [] |} in
  let given := {| kw_pipeline := true; kw_transform := true;
                  kw_tag := Some (TagStr "a"); kw_element_type := None;
                  kw_other := [] |} in
  PValue_init missing tuple_ab = (Raise ValueError, tuple_ab)
  /\ exists pv h',
       PValue_init given tuple_ab = (Ok pv, h')
       /\ obj_id pv = next_id tuple_ab
       /\ tag_of pv = TagStr "a"
       /\ pvalues (the_pipeline h') = [obj_id pv].
Proof.
  cbn zeta. split.
  - refine (proj1 (PValue_init_outcome _ tuple_ab) _). left. reflexivity.
  - destruct (proj2 (PValue_init_outcome
                       {| kw_pipeline := true; kw_transform := true;
                          kw_tag := Some (TagStr "a");
                          kw_element_type := None; kw_other := [] |}
                       tuple_ab) eq_refl eq_refl eq_refl)
      as (pv & h' & E & H1 & H2 & _ & _ & _ & H3 & _).
    exists pv, h'. repeat split; assumption.
Defined.

Lemma handed_out_pcollections_witness :
  let h := lookups [TagStr "a"] (set_producer (Some 7%nat) tuple_ab) in
  let pc := {| obj_id := 0; tag_of := TagStr "a"; element_type := None;
               producer := Some 7%nat |} in
  _pcolls (self h) !! TagStr "a" = Some pc
  /\ tag_of pc = TagStr "a"
  /\ producer pc = dot_producer (self h)
  /\ obj_id pc ∈ pvalues (the_pipeline h)
  /\ TagStr "a" ∈ side_output_tags (the_transform h).
Proof.
  cbn zeta.
  assert (H1 : _pcolls (self (lookups [TagStr "a"]
                                (set_producer (Some 7%nat) tuple_ab)))
                 !! TagStr "a"
               = Some {| obj_id := 0; tag_of := TagStr "a";
                         element_type := None; producer := Some 7%nat |})
    by (vm_compute; reflexivity).
  split; [exact H1|].
  destruct (proj1 (handed_out_pcollections (Runner := unit) 0
                     {| runner := None; pvalues := [] |}
                     {| side_output_tags := ∅ |}
                     (Some [TagStr "a"; TagStr "b"]) (TagStr "main")
                     (Some 7%nat) [TagStr "a"] (TagStr "a") _) H1)
    as (T1 & T2 & T3 & _ & T4 & T5 & _).
  split; [exact T1|]. split; [exact (eq_trans T2 (eq_sym T3))|].
  split; [exact T4|].
  apply T5. discriminate.
Defined.

Lemma DoOutputsTuple_iter_repeatable_witness :
  let pcs := fst (DoOutputsTuple_iter tuple_ab) in
  let h' := snd (DoOutputsTuple_iter tuple_ab) in
  exists l, pcs = Ok l
            /\ DoOutputsTuple_iter tuple_ab = (Ok l, h')
            /\ map tag_of l = [TagNone; TagStr "a"; TagStr "b"]
            /\ (exists main rest,
                  l = main ++ rest
                  /\ Forall2 (fun t pc => getitem t h' = (Ok pc, h'))
                       [TagStr "a"; TagStr "b"] rest)
            /\ DoOutputsTuple_iter h' = (Ok l, h').
Proof.
  cbn zeta.
  destruct (DoOutputsTuple_iter tuple_ab) as [[l|e] h'] eqn:E;
    [|vm_compute in E; discriminate].
  exists l. split; [reflexivity|]. split; [reflexivity|].
  destruct (DoOutputsTuple_iter_repeatable tuple_ab l h' E)
    as [(tags & main & rest & Ht & Hl & _ & Hrest) Hrep].
  split; [|split].
  - vm_compute in E. injection E as <- _. reflexivity.
  - exists main, rest. split; [exact Hl|].
    cbn in Ht. injection Ht as <-. exact Hrest.
  - apply Hrep. repeat split; reflexivity.
Defined.

Lemma SideOutputValue_needs_str_tag_witness :
  is_int 1 = true
  /\ SideOutputValue_init (TagInt 1) (PyInt 5) = Raise TypeError
  /\ exists sov,
       SideOutputValue_init (TagStr (str_int 1)) (PyInt 5) = Ok sov
       /\ getitem (sov_tag sov) tuple_open = getitem (TagInt 1) tuple_open.
Proof.
  assert (H1 : is_int 1 = true) by reflexivity.
  split; [exact H1|].
  destruct (proj2 (SideOutputValue_needs_str_tag (Runner := unit) (PyInt 5)
                     TagNone) 1 tuple_open) as (E1 & sov & E2 & E3).
  split; [exact E1|]. exists sov. split; [exact E2|exact (E3 H1)].
Defined.

Lemma get_internal_with_runner_witness :
  let s : ExecState unit nat :=
    {| exec_pipeline := {| runner := None; pvalues := [0%nat] |};
       runner_state := 0%nat; run_log := [] |} in
  Some tt = Some tt
  /\ run_log (snd (_get_internal (V := Z) some_pcoll (Some tt) s)) = [0%nat]
  /\ fst (_get_internal (V := Z) some_pcoll (Some tt) s) = Ok [].
Proof.
  cbn zeta. split; [reflexivity|].
  destruct (get_internal_with_runner (V := Z) some_pcoll (Some tt) tt
              {| exec_pipeline := {| runner := None; pvalues := [0%nat] |};
                 runner_state := 0%nat; run_log := [] |}
              (or_introl eq_refl)) as (H1 & _ & H3).
  split; [exact H1|]. exact (proj1 H3).
Defined.

Lemma windowing_is_computed_once_witness :
  let unapplied : @PCollectionObject nat nat :=
    {| pvalue_fields := some_pcoll; _windowing := None;
       transform_state := 0%nat |} in
  let applied : @PCollectionObject nat nat :=
    {| pvalue_fields := {| obj_id := 1; tag_of := TagNone;
                           element_type := None; producer := Some 7%nat |};
       _windowing := None; transform_state := 0%nat |} in
  PCollection_windowing counting_get_windowing unapplied
  = (Raises AttributeError, unapplied)
  /\ exists s',
       PCollection_windowing counting_get_windowing applied
       = (Returns 7%nat, s')
       /\ transform_state s' = 1%nat
       /\ PCollection_windowing counting_get_windowing s'
          = (Returns 7%nat, s').
Proof.
  cbn zeta. split.
  - exact (proj1 (windowing_is_computed_once counting_get_windowing
                    {| pvalue_fields := some_pcoll; _windowing := None;
                       transform_state := 0%nat |})
             eq_refl eq_refl).
  - eexists. split; [reflexivity|]. split; [reflexivity|].
    refine (proj2 (proj2 (proj2 (proj2
              (windowing_is_computed_once counting_get_windowing
                 {| pvalue_fields := {| obj_id := 1; tag_of := TagNone;
                                        element_type := None;
                                        producer := Some 7%nat |};
                    _windowing := None; transform_state := 0%nat |}))
              7%nat _ eq_refl)) _ 1%nat).
Defined.

Lemma PValue_apply_places_self_witness :
  is_str (ArgTransform tt : argument unit) = false
  /\ PValue_apply counting_apply some_pcoll
       [ArgStr "label"; ArgTransform tt; ArgOther (PyInt 1)] [] 0%nat
     = PValue_apply counting_apply some_pcoll
         [ArgTransform tt; ArgOther (PyInt 1)] [] 0%nat.
Proof.
  split; [reflexivity|].
  exact (proj1 (proj2 (PValue_apply_places_self counting_apply some_pcoll
                         (ArgTransform tt) [ArgOther (PyInt 1)] [] "label"
                         0%nat eq_refl))).
Defined.

Lemma ExtractUserAndTimestamp_outcomes_witness :
  let anonymous : table_row :=
    {| row_timestamp := Some 0;
       row_fields := {[ "comment"%string := JString "typo" ]} |} in
  let undated : table_row :=
    {| row_timestamp := None;
       row_fields := {[ "contributor_username"%string := JString "user1" ]} |} in
  let numbered : table_row :=
    {| row_timestamp := Some (of_seconds 1);
       row_fields := {[ "contributor_username"%string := JInt 5 ]} |} in
  row_fields anonymous !! "contributor_username"%string = None
  /\ ExtractUserAndTimestampDoFn (mkContext anonymous 0 [GlobalWindow]) = Ok []
  /\ is_Some (row_fields undated !! "contributor_username"%string)
  /\ row_timestamp undated = None
  /\ ExtractUserAndTimestampDoFn (mkContext undated 0 [GlobalWindow])
     = Raise KeyError
  /\ ExtractUserAndTimestampDoFn (mkContext numbered 0 [GlobalWindow])
     = Ok [TimestampedValue (JInt 5) (of_seconds 1)].
Proof.
  cbn zeta. split; [reflexivity|]. split; [|split; [|split; [|split]]].
  - exact (proj1 (ExtractUserAndTimestamp_outcomes
                    {| row_timestamp := Some 0;
                       row_fields := {[ "comment"%string := JString "typo" ]} |}
                    0 [GlobalWindow])
             eq_refl).
  - eexists; reflexivity.
  - reflexivity.
  - refine (proj1 (proj2 (ExtractUserAndTimestamp_outcomes
                            {| row_timestamp := None;
                               row_fields :=
                                 {[ "contributor_username"%string
                                    := JString "user1" ]} |}
                            0 [GlobalWindow])) _ eq_refl).
    eexists; reflexivity.
  - exact (proj1 (proj2 (proj2 (ExtractUserAndTimestamp_outcomes
                                  {| row_timestamp := Some (of_seconds 1);
                                     row_fields :=
                                       {[ "contributor_username"%string
                                          := JInt 5 ]} |}
                                  0 [GlobalWindow])))
             (JInt 5) (of_seconds 1) eq_refl eq_refl).
Defined.

Lemma sampled_monotone_witness :
  let hash : json -> Z := fun _ => - maxint - 1 in
  ((1 # 2) <= 1)%Q
  /\ sampled (fun _ => 2 ^ 62) (NumFloat (1 # 2)) (JString "user1") = true
  /\ sampled (fun _ => 2 ^ 62) (NumFloat 1) (JString "user1") = true
  /\ - maxint - 1 <= hash (JString "user1") <= maxint
  /\ sampled hash (NumFloat 1) (JString "user1") = true
  /\ sampled hash (NumInt 1) (JString "user1") = false.
Proof.
  cbn zeta.
  assert (H1 : ((1 # 2) <= 1)%Q) by (unfold Qle; cbn; lia).
  assert (H2 : sampled (fun _ => 2 ^ 62) (NumFloat (1 # 2)) (JString "user1")
               = true)
    by (vm_compute; reflexivity).
  assert (H3 : - maxint - 1 <= (fun _ : json => - maxint - 1) (JString "user1")
               <= maxint)
    by (unfold maxint; cbn; lia).
  split; [exact H1|]. split; [exact H2|]. split.
  - exact (proj1 (sampled_monotone (fun _ => 2 ^ 62) (JString "user1"))
             (1 # 2) 1%Q H1 H2).
  - split; [exact H3|].
    destruct (proj2 (proj2 (proj2 (proj2 (proj2 (proj2 (proj2
                (sampled_monotone (fun _ => - maxint - 1) (JString "user1"))))))))
                H3)
      as (Hf & _ & Hi).
    split; [apply Hf; unfold Qle; cbn; lia|].
    destruct (sampled (fun _ : json => - maxint - 1) (NumInt 1) (JString "user1"))
      eqn:E; [|reflexivity].
    now destruct (proj1 Hi eq_refl).
Defined.

Lemma contains_in_any_order_outcomes_witness :
  ["a"; "b"]%string ≡ₚ ["b"; "a"]%string
  /\ contains_in_any_order ["a"; "b"]%string ["b"; "a"]%string = Ok true
  /\ NoDup ["b"; "a"]%string
  /\ (contains_in_any_order (remove_dups ["a"; "b"; "a"]%string)
        ["b"; "a"]%string = Ok true
      <-> forall x, x ∈ ["a"; "b"; "a"]%string <-> x ∈ ["b"; "a"]%string).
Proof.
  assert (H1 : ["a"; "b"]%string ≡ₚ ["b"; "a"]%string) by apply Permutation_swap.
  assert (H2 : NoDup ["b"; "a"]%string).
  { apply (bool_decide_unpack _). vm_compute. exact I. }
  split; [exact H1|]. split.
  - exact (proj1 (contains_in_any_order_outcomes _ _) H1).
  - split; [exact H2|].
    exact (proj1 (proj2 (proj2 (proj2
             (contains_in_any_order_outcomes ["a"; "b"; "a"]%string
                ["b"; "a"]%string)))) H2).
Defined.

Lemma anonymous_rows_are_ignored_witness :
  let undated : table_row :=
    {| row_timestamp := None;
       row_fields := {[ "contributor_username"%string := JString "user1" ]} |} in
  undated ∈ [edit 0 "user2"; undated]
  /\ is_Some (row_fields undated !! "contributor_username"%string)
  /\ row_timestamp undated = None
  /\ exists e,
       ComputeTopSessions (fun _ => 0) two_shards (NumFloat 1)
         (Create [edit 0 "user2"; undated]) = Raise e.
Proof.
  cbn zeta.
  set (undated := {| row_timestamp := None;
                     row_fields :=
                       {[ "contributor_username"%string := JString "user1" ]} |}).
  assert (H1 : undated ∈ [edit 0 "user2"; undated]).
  { apply elem_of_cons. right. apply elem_of_cons. now left. }
  assert (H2 : is_Some (row_fields undated !! "contributor_username"%string))
    by (eexists; reflexivity).
  split; [exact H1|]. split; [exact H2|]. split; [reflexivity|].
  exact (proj2 (anonymous_rows_are_ignored (fun _ => 0) two_shards (NumFloat 1) _)
           _ H1 H2 eq_refl).
Defined.

Lemma PipelineOptions_getattr_outcomes_witness :
  _visible_options sample_options !! ""%string = None
  /\ ~ shows sample_options "project"
  /\ PipelineOptions_getattr sample_options "project" sample_store
     = (Raises AttributeError, sample_store)
  /\ PipelineOptions_getattr sample_options "job_name" sample_store
     = (Returns (PyStr "wordcount"), sample_store)
  /\ PipelineOptions_getattr sample_options "runner" sample_store
     = (Returns (PyStr "DirectPipelineRunner"), sample_store).
Proof.
  assert (H0 : _visible_options sample_options !! ""%string = None)
    by (vm_compute; reflexivity).
  assert (H1 : ~ shows sample_options "project").
  { intros [[v Hv] _]. vm_compute in Hv. discriminate. }
  split; [exact H0|]. split; [exact H1|]. split.
  - exact (proj1 (PipelineOptions_getattr_outcomes sample_options "project"
                    sample_store H0) H1).
  - split.
    + exact (proj2 (PipelineOptions_getattr_outcomes sample_options "job_name"
                      sample_store H0) PyNone eq_refl eq_refl).
    + exact (proj2 (PipelineOptions_getattr_outcomes sample_options "runner"
                      sample_store H0) (PyStr "DirectPipelineRunner")
               eq_refl eq_refl).
Defined.

Lemma PipelineOptions_setattr_getattr_witness :
  _visible_options sample_options !! ""%string = None
  /\ shows sample_options "runner"
  /\ exists st',
       PipelineOptions_setattr sample_options "runner" eq_refl
         (PyStr "DataflowPipelineRunner") sample_store = (Returns tt, st')
       /\ PipelineOptions_getattr sample_options "runner" st'
          = (Returns (PyStr "DataflowPipelineRunner"), st').
Proof.
  assert (H0 : _visible_options sample_options !! ""%string = None)
    by (vm_compute; reflexivity).
  assert (H1 : shows sample_options "runner").
  { split; [eexists; vm_compute; reflexivity|reflexivity]. }
  split; [exact H0|]. split; [exact H1|].
  destruct (proj1 (PipelineOptions_setattr_getattr sample_options "runner"
                     eq_refl (PyStr "DataflowPipelineRunner") sample_store H0)
              H1) as (st' & E1 & E2 & _).
  exists st'. split; assumption.
Defined.

Lemma view_as_shares_overrides_witness :
  exists view st1,
    PipelineOptions_view_as sample_parser sample_options tt sample_store
    = (Returns view, st1)
    /\ _all_options view = _all_options sample_options
    /\ PipelineOptions_getattr view "job_name" st1
       = (Returns (PyStr "wordcount"), st1).
Proof.
  destruct (PipelineOptions_view_as sample_parser sample_options tt sample_store)
    as [[view|e] st1] eqn:E; [|vm_compute in E; discriminate].
  exists view, st1. split; [reflexivity|].
  assert (Hv : _visible_options view = sample_namespace).
  { vm_compute in E. injection E as <- _. reflexivity. }
  assert (H1 : _visible_options sample_options !! ""%string = None)
    by (vm_compute; reflexivity).
  assert (H2 : _visible_options view !! ""%string = None)
    by (rewrite Hv; vm_compute; reflexivity).
  assert (H3 : (_all_options sample_options < next_dict sample_store)%nat)
    by (cbn; lia).
  destruct (view_as_shares_overrides sample_parser sample_options tt
              sample_store view st1 E H1 H2 H3)
    as (T1 & _ & _ & _ & _ & T6).
  split; [exact T1|].
  apply T6.
  - vm_compute. reflexivity.
  - unfold shows. rewrite Hv.
    split; [eexists; vm_compute; reflexivity|reflexivity].
Defined.

Lemma with_context_restores_witness :
  let s : @ContextState pyval :=
    {| store := sample_store; overrides := [[assign_runner "outer"]] |} in
  (forall s0 : @ContextState pyval,
      overrides (snd (mret (M := ME ContextState) tt s0)) = overrides s0)
  /\ overrides (snd (with_context [assign_runner "inner"]
                       (mret (M := ME ContextState) tt) s))
     = overrides s.
Proof.
  cbn zeta.
  assert (H1 : forall s0 : @ContextState pyval,
             overrides (snd (mret (M := ME ContextState) tt s0)) = overrides s0)
    by reflexivity.
  split; [exact H1|].
  exact (proj1 (proj2 (proj2 (proj1 (with_context_restores
                                       [assign_runner "inner"]
                                       (mret (M := ME ContextState) tt) H1)
                                _)))).
Defined.

Lemma augment_options_last_wins_witness :
  let s : @ContextState pyval :=
    {| store := sample_store;
       overrides := [[assign_runner "outer"]; [assign_runner "inner"]] |} in
  _visible_options sample_options !! ""%string = None
  /\ Forall (fun a => shows sample_options (a_name a)) (concat (overrides s))
  /\ exists st',
       fst (OptionsContext_augment_options sample_options s)
       = Returns sample_options
       /\ PipelineOptions_getattr sample_options "runner" st'
          = (Returns (PyStr "inner"), st').
Proof.
  cbn zeta.
  assert (H0 : _visible_options sample_options !! ""%string = None)
    by (vm_compute; reflexivity).
  assert (Hs : shows sample_options "runner").
  { split; [eexists; vm_compute; reflexivity|reflexivity]. }
  assert (H1 : Forall (fun a => shows sample_options (a_name a))
                 (concat [[assign_runner "outer"]; [assign_runner "inner"]])).
  { cbn. constructor; [exact Hs|]. constructor; [exact Hs|]. constructor. }
  split; [exact H0|]. split; [exact H1|].
  destruct (proj1 (augment_options_last_wins sample_options
                     {| store := sample_store;
                        overrides := [[assign_runner "outer"];
                                      [assign_runner "inner"]] |} H0) H1)
    as (st' & E & _ & Hlast).
  exists st'. split; [now rewrite E|].
  apply (Hlast [assign_runner "outer"] (assign_runner "inner") []).
  - reflexivity.
  - constructor.
Defined.
